(** * Qwen proxy: dispatch-and-failover core

    A shallow embedding of [src/utils/request.js] (the two-phase request
    dispatcher), of [src/utils/data-persistence.js] (the persistence
    store, in both versions the repository carries) and of the start-up
    configuration ([src/utils/pre-config.js], the seeding of accounts),
    with the properties of the specification, and further properties of
    the code, stated and proved over it.

    Conventions of the embedding
    - An [async] function is a state transformer: every [await] in the
      sources is on a call whose effects are finished when it resumes, and
      one dispatch is followed from start to end (interleaving of several
      dispatches is not modelled).
    - A JavaScript exception is the [Thrown] form of [outcome]; state
      changes made before the throw stay.
    - The log is part of the state; a log line keeps its level, its tag and
      the interpolated error message, not the fixed text around it. *)

From stdpp Require Import base option list gmap strings pretty.
From Stdlib Require Import ZArith Ascii String List Lia.
Import ListNotations.
Local Open Scope string_scope.

(** ** JavaScript values, errors and outcomes *)

(** The part of the JavaScript value universe the sources inspect. *)
#[warnings="-register-all"]
Inductive JsVal : Type :=
| JUndefined
| JNull
| JBool (b : bool)
| JNum (n : Z)
| JStr (s : string)
| JObj (fields : list (string * JsVal)).

(** An [Error] object: the optional [code] property and the [message]. *)
Record Error : Type := mkError { code : option string; message : string }.

(** [new Error(msg)] *)
Definition new_Error (msg : string) : Error := mkError None msg.

(** The [TypeError] raised by a property access on [null] or [undefined]. *)
Definition TypeError (prop : string) : Error :=
  mkError None ("Cannot read properties of null or undefined (reading '" ++ prop ++ "')").

(** The result of running a piece of code: normal completion or an exception. *)
Inductive outcome (A : Type) : Type :=
| Returned (a : A)
| Thrown (e : Error).
Arguments Returned {A} a.
Arguments Thrown {A} e.

(** JavaScript truthiness. *)
Definition truthy (v : JsVal) : bool :=
  match v with
  | JUndefined | JNull => false
  | JBool b => b
  | JNum n => negb (n =? 0)%Z
  | JStr s => negb (String.eqb s "")
  | JObj _ => true
  end.

(** Own-property lookup in an object literal. *)
Fixpoint assoc (k : string) (fs : list (string * JsVal)) : JsVal :=
  match fs with
  | [] => JUndefined
  | (k', v) :: rest => if String.eqb k k' then v else assoc k rest
  end.

(** [v.k]: throws on [null] and [undefined], is [undefined] on the other
    primitives. *)
Definition get_prop (k : string) (v : JsVal) : outcome JsVal :=
  match v with
  | JUndefined | JNull => Thrown (TypeError k)
  | JObj fs => Returned (assoc k fs)
  | _ => Returned JUndefined
  end.

(** [v?.k]: optional chaining never throws. *)
Definition get_prop_opt (k : string) (v : JsVal) : JsVal :=
  match v with
  | JObj fs => assoc k fs
  | _ => JUndefined
  end.

(** [hay.includes(needle)] on strings. *)
Fixpoint includes (hay needle : string) : bool :=
  String.prefix needle hay
  || match hay with
     | EmptyString => false
     | String _ rest => includes rest needle
     end.

(** A nullable string (a proxy URL): [None] is [null]/[undefined]. *)
Definition truthy_str (p : option string) : bool :=
  match p with
  | Some s => negb (String.eqb s "")
  | None => false
  end.

(** ** A state-and-exception monad *)

Definition M (S A : Type) : Type := S -> outcome A * S.

Definition ret {S A} (a : A) : M S A := fun s => (Returned a, s).

Definition throw {S A} (e : Error) : M S A := fun s => (Thrown e, s).

Definition bind {S A B} (m : M S A) (k : A -> M S B) : M S B :=
  fun s =>
    match m s with
    | (Returned a, s') => k a s'
    | (Thrown e, s') => (Thrown e, s')
    end.

(** [try { m } catch (error) { h error }] *)
Definition try_catch {S A} (m : M S A) (h : Error -> M S A) : M S A :=
  fun s =>
    match m s with
    | (Returned a, s') => (Returned a, s')
    | (Thrown e, s') => h e s'
    end.

Definition lift_outcome {S A} (o : outcome A) : M S A := fun s => (o, s).

Definition modify {S} (f : S -> S) : M S unit := fun s => (Returned tt, f s).

Declare Scope js_scope.
Delimit Scope js_scope with js.
Notation "x <- m ;; k" := (bind m (fun x => k))
  (at level 100, m at next level, right associativity) : js_scope.
Notation "m ;;; k" := (bind m (fun _ => k))
  (at level 100, right associativity) : js_scope.

(** The computation [m] never changes the part [f] of the state. *)
Definition preserves {S A B : Type} (f : S -> B) (m : M S A) : Prop :=
  forall s, f (snd (m s)) = f s.

(** Control leaving one iteration of a retry loop. *)
Inductive ctl (A : Type) : Type :=
| CReturn (a : A)      (* [return a] *)
| CNext                (* [continue], or the end of the loop body *)
| CBreak.              (* [break] *)
Arguments CReturn {A} a.
Arguments CNext {A}.
Arguments CBreak {A}.

Inductive LogLevel : Type := LError | LWarn | LInfo | LSuccess | LNetwork.

(** ** The request dispatcher ([src/utils/request.js]) *)

Module Request.

(** What [accountManager.getNextAccount()] yields. *)
Record AccountInfo : Type := mkAccountInfo { token : string; email : string }.

(** The interface of [./account.js] the dispatcher consumes. The module is
    a collaborator outside this core; its state is abstract. *)
Class AccountManager (AM : Type) : Type := {
  getNextAccount : AM -> option AccountInfo * AM;
  getProxyForAccount : string -> AM -> option string * AM;
  handleNetworkFailure : string -> string -> AM -> AM
}.

(** An axios response: HTTP status and body. *)
Record Response : Type := mkResponse { status : Z; data : JsVal }.

(** How one [axios.post] settles. *)
Inductive PostOutcome : Type :=
| Resolved (r : Response)
| Rejected (e : Error).

(** The two upstream calls with what they send. *)
Inductive Endpoint : Type :=
| NewChat (model : JsVal)                       (* POST /api/v2/chats/new *)
| Completions (chat_id : JsVal) (body : JsVal). (* POST /api/v2/chat/completions?chat_id=.. *)

(** The fields of [requestConfig] that vary. *)
Record RequestConfig : Type := mkConfig {
  authorization : string;
  responseType : option string;
  agent : option string          (* the proxy of [httpAgent]/[httpsAgent], if set *)
}.

Inductive Event : Type :=
| EvGetNextAccount (res : option AccountInfo)
| EvGetProxyForAccount (em : string) (res : option string)
| EvHandleNetworkFailure (em : string) (proxy : string)
| EvPost (ep : Endpoint) (cfg : RequestConfig) (res : PostOutcome)
| EvLog (lvl : LogLevel) (tag : string) (msg : string).

(** The state one dispatch runs in: the account manager, the number of
    POSTs issued so far, and what happened, newest event first. *)
Record World (AM : Type) : Type := mkWorld {
  am : AM;
  posts : nat;
  trace : list Event
}.
Arguments mkWorld {AM} _ _ _.
Arguments am {AM} _.
Arguments posts {AM} _.
Arguments trace {AM} _.

(** What [sendChatRequest] resolves to. *)
Record ChatResult : Type := mkResult {
  currentToken : option string;
  result_status : bool;
  response : JsVal
}.

(** [{ status: false, response: null }] *)
Definition failure : ChatResult := mkResult None false JNull.

(** [{ currentToken, status: true, response: response.data }] *)
Definition success (tok : string) (payload : JsVal) : ChatResult :=
  mkResult (Some tok) true payload.

Definition MAX_RETRIES : nat := 3.

Definition networkErrorCodes : list string :=
  ["ECONNRESET"; "ECONNREFUSED"; "ETIMEDOUT"; "ENOTFOUND"; "ENETUNREACH"; "EAI_AGAIN"].

(** [networkErrorCodes.includes(error.code)] *)
Definition code_listed (c : option string) : bool :=
  match c with
  | Some c => existsb (String.eqb c) networkErrorCodes
  | None => false
  end.

(** The transient-network test both catch blocks apply to the error. *)
Definition is_network_error (e : Error) : bool :=
  code_listed (code e)
  || includes (message e) "timeout"
  || includes (message e) "ECONN"
  || includes (message e) "socket".

(** The upstream service as the dispatcher meets it. *)
Class Upstream : Type := {
  (** how the n-th POST of the run settles *)
  upstream : nat -> PostOutcome;
  (** [new SocksProxyAgent(proxy)]: the message of the exception it raises,
      if it raises one *)
  agent_error : string -> option string
}.

Section Dispatcher.
Context {AM : Type} {mgr : AccountManager AM} {net : Upstream}.

Local Open Scope js_scope.

Definition emit (ev : Event) : M (World AM) unit :=
  modify (fun w => mkWorld (am w) (posts w) (ev :: trace w)).

Definition log (lvl : LogLevel) (tag msg : string) : M (World AM) unit :=
  emit (EvLog lvl tag msg).

Definition axios_post (ep : Endpoint) (cfg : RequestConfig) : M (World AM) Response :=
  fun w =>
    let res := upstream (posts w) in
    let w' := mkWorld (am w) (S (posts w)) (EvPost ep cfg res :: trace w) in
    match res with
    | Resolved r => (Returned r, w')
    | Rejected e => (Thrown e, w')
    end.

Definition am_getNextAccount : M (World AM) (option AccountInfo) :=
  fun w =>
    let (r, a) := getNextAccount (am w) in
    (Returned r, mkWorld a (posts w) (EvGetNextAccount r :: trace w)).

Definition am_getProxyForAccount (em : string) : M (World AM) (option string) :=
  fun w =>
    let (r, a) := getProxyForAccount em (am w) in
    (Returned r, mkWorld a (posts w) (EvGetProxyForAccount em r :: trace w)).

Definition am_handleNetworkFailure (em proxy : string) : M (World AM) unit :=
  fun w =>
    (Returned tt,
     mkWorld (handleNetworkFailure em proxy (am w)) (posts w)
             (EvHandleNetworkFailure em proxy :: trace w)).

(** [if (proxy) { try { agent = new SocksProxyAgent(proxy); ... }
    catch (agentError) { logger.error(...) } }]: the agent the request
    will go through. *)
Definition attach_agent (proxy : option string) : M (World AM) (option string) :=
  match proxy with
  | Some p =>
      if truthy_str (Some p) then
        match agent_error p with
        | None => ret (Some p)
        | Some msg => log LError "PROXY" msg ;;; ret None
        end
      else ret None
  | None => ret None
  end.

(** *** Phase A: [generateChatID] *)

(** One iteration of the loop of [generateChatID]: the control it leaves
    with, and the new values of [lastError] and [currentProxy]. *)
Definition generateChatID_attempt (tok : string) (model : JsVal) (em : string)
    (currentProxy : option string) (lastError : option Error)
  : M (World AM) (ctl JsVal * option Error * option string) :=
  ag <- attach_agent currentProxy ;;
  let requestConfig := mkConfig ("Bearer " ++ tok) None ag in
  try_catch
    (response_data <- axios_post (NewChat model) requestConfig ;;
     let id := get_prop_opt "id" (get_prop_opt "data" (data response_data)) in
     if truthy id then ret (CReturn id, lastError, currentProxy)
     else ret (CNext,
               Some (new_Error "Invalid response data when generating chat_id"),
               currentProxy))
    (fun error =>
       log LError "CHAT" (message error) ;;;
       match currentProxy with
       | Some p =>
           if truthy_str (Some p) && is_network_error error then
             log LWarn "PROXY" "" ;;;
             am_handleNetworkFailure em p ;;;
             p' <- am_getProxyForAccount em ;;
             ret (CNext, Some error, p')
           else ret (CBreak, Some error, currentProxy)
       | None => ret (CBreak, Some error, currentProxy)
       end).

(** The code after the loop: [logger.error(`... ${lastError.message}`)]
    and [return null]. Reading [.message] of [null] would throw. *)
Definition generateChatID_fail (lastError : option Error) : M (World AM) JsVal :=
  match lastError with
  | Some e => log LError "CHAT" (message e) ;;; ret JNull
  | None => throw (TypeError "message")
  end.

(** The [for] loop with [fuel] iterations left
    ([attempt = MAX_RETRIES + 1 - fuel]). *)
Fixpoint generateChatID_loop (fuel : nat) (tok : string) (model : JsVal) (em : string)
    (currentProxy : option string) (lastError : option Error) : M (World AM) JsVal :=
  match fuel with
  | 0 => generateChatID_fail lastError
  | S fuel' =>
      r <- generateChatID_attempt tok model em currentProxy lastError ;;
      match r with
      | (CReturn id, _, _) => ret id
      | (CNext, le, p) => generateChatID_loop fuel' tok model em p le
      | (CBreak, le, _) => generateChatID_fail le
      end
  end.

Definition generateChatID (initialToken : string) (model : JsVal) (em : string)
    (initialProxy : option string) : M (World AM) JsVal :=
  generateChatID_loop MAX_RETRIES initialToken model em initialProxy None.

(** *** Phase B: [sendChatRequest] *)

(** The [try] block of one outer iteration. *)
Definition sendChatRequest_try (body : JsVal) (acct : AccountInfo)
    (proxy : option string) (lastError : option Error)
  : M (World AM) (ctl ChatResult * option Error) :=
  stream <- lift_outcome (get_prop "stream" body) ;;
  let rt := if truthy stream then "stream" else "json" in
  ag <- attach_agent proxy ;;
  let requestConfig := mkConfig ("Bearer " ++ token acct) (Some rt) ag in
  model <- lift_outcome (get_prop "model" body) ;;
  chat_id <- generateChatID (token acct) model (email acct) proxy ;;
  if negb (truthy chat_id) then
    log LError "CHAT" "" ;;;
    ret (CReturn failure, lastError)
  else
    log LNetwork "REQUEST" "" ;;;
    resp <- axios_post (Completions chat_id body) requestConfig ;;
    if (status resp =? 200)%Z then
      ret (CReturn (success (token acct) (data resp)), lastError)
    else
      ret (CNext,
           Some (new_Error ("Request failed with status code " ++ pretty (status resp)))).

(** The [catch] block of one outer iteration. *)
Definition sendChatRequest_catch (acct : AccountInfo) (proxy : option string)
    (error : Error) : M (World AM) (ctl ChatResult * option Error) :=
  log LError "REQUEST" (message error) ;;;
  match proxy with
  | Some p =>
      if truthy_str (Some p) && is_network_error error then
        log LWarn "PROXY" "" ;;;
        am_handleNetworkFailure (email acct) p ;;;
        ret (CNext, Some error)
      else ret (CBreak, Some error)
  | None => ret (CBreak, Some error)
  end.

(** The code after the loop. *)
Definition sendChatRequest_fail (lastError : option Error) : M (World AM) ChatResult :=
  match lastError with
  | Some e => log LError "REQUEST" (message e) ;;; ret failure
  | None => throw (TypeError "message")
  end.

Fixpoint sendChatRequest_loop (fuel : nat) (body : JsVal) (lastError : option Error)
  : M (World AM) ChatResult :=
  match fuel with
  | 0 => sendChatRequest_fail lastError
  | S fuel' =>
      accountInfo <- am_getNextAccount ;;
      match accountInfo with
      | None => log LError "ACCOUNT" "" ;;; ret failure
      | Some acct =>
          proxy <- am_getProxyForAccount (email acct) ;;
          r <- try_catch (sendChatRequest_try body acct proxy lastError)
                         (sendChatRequest_catch acct proxy) ;;
          match r with
          | (CReturn v, _) => ret v
          | (CNext, le) => sendChatRequest_loop fuel' body le
          | (CBreak, le) => sendChatRequest_fail le
          end
      end
  end.

Definition sendChatRequest (body : JsVal) : M (World AM) ChatResult :=
  sendChatRequest_loop MAX_RETRIES body None.

(** *** What one run leaves in the trace *)

(** The account selections recorded in a trace, newest first. *)
Fixpoint selections (t : list Event) : list (option AccountInfo) :=
  match t with
  | [] => []
  | EvGetNextAccount r :: rest => r :: selections rest
  | _ :: rest => selections rest
  end.

(** The agent a request with proxy [proxy] goes through, and the log
    line its construction leaves. *)
Definition agent_of (proxy : option string) : option string :=
  match proxy with
  | Some p =>
      if truthy_str (Some p)
      then match agent_error p with None => Some p | Some _ => None end
      else None
  | None => None
  end.

Definition agent_events (proxy : option string) : list Event :=
  match proxy with
  | Some p =>
      if truthy_str (Some p)
      then match agent_error p with
           | None => []
           | Some msg => [EvLog LError "PROXY" msg]
           end
      else []
  | None => []
  end.

(** The retry test of both catch blocks:
    [proxy && (networkErrorCodes.includes(error.code) || ...)]. *)
Definition retryable (proxy : option string) (e : Error) : bool :=
  truthy_str proxy && is_network_error e.

(** The world after the POST of an attempt of phase A. *)
Definition after_new_chat (tok : string) (model : JsVal) (proxy : option string)
    (w : World AM) : World AM :=
  mkWorld (am w) (S (posts w))
    (EvPost (NewChat model) (mkConfig ("Bearer " ++ tok) None (agent_of proxy))
            (upstream (posts w))
     :: (agent_events proxy ++ trace w)%list).

(** The identifier [response_data.data?.data?.id] of a response. *)
Definition chat_id_of (r : Response) : JsVal :=
  get_prop_opt "id" (get_prop_opt "data" (data r)).

(** The world after the catch block of phase A took the retry branch. *)
Definition after_rotation (em p : string) (e : Error) (w1 : World AM) : World AM :=
  let a := handleNetworkFailure em p (am w1) in
  mkWorld (snd (getProxyForAccount em a)) (posts w1)
    (EvGetProxyForAccount em (fst (getProxyForAccount em a))
     :: EvHandleNetworkFailure em p
     :: EvLog LWarn "PROXY" ""
     :: EvLog LError "CHAT" (message e)
     :: trace w1).

(** The world after the catch block of phase A took the [break] branch. *)
Definition after_break (e : Error) (w1 : World AM) : World AM :=
  mkWorld (am w1) (posts w1) (EvLog LError "CHAT" (message e) :: trace w1).

(** *** The steps of phase B *)

(** The world at the start of the [try] block: an account was selected
    and its proxy resolved. *)
Definition after_select (acct : AccountInfo) (proxy : option string) (a : AM)
    (w : World AM) : World AM :=
  mkWorld a (posts w)
    (EvGetProxyForAccount (email acct) proxy :: EvGetNextAccount (Some acct) :: trace w).

Definition with_agent (proxy : option string) (w : World AM) : World AM :=
  mkWorld (am w) (posts w) (agent_events proxy ++ trace w)%list.

Definition logged (lvl : LogLevel) (tag msg : string) (w : World AM) : World AM :=
  mkWorld (am w) (posts w) (EvLog lvl tag msg :: trace w).

(** The [requestConfig] of the completion call. *)
Definition completion_config (acct : AccountInfo) (stream : JsVal)
    (proxy : option string) : RequestConfig :=
  mkConfig ("Bearer " ++ token acct)
           (Some (if truthy stream then "stream" else "json"))
           (agent_of proxy).

(** The world after the completion POST, issued in world [w2]. *)
Definition after_completion (cid body stream : JsVal) (acct : AccountInfo)
    (proxy : option string) (w2 : World AM) : World AM :=
  mkWorld (am w2) (S (posts w2))
    (EvPost (Completions cid body) (completion_config acct stream proxy)
            (upstream (posts w2))
     :: EvLog LNetwork "REQUEST" "" :: trace w2).

Definition non_200 (r : Response) : Error :=
  new_Error ("Request failed with status code " ++ pretty (status r)).

(** The world after the [catch] block reported a proxy failure. *)
Definition after_report (em p : string) (e : Error) (w3 : World AM) : World AM :=
  mkWorld (handleNetworkFailure em p (am w3)) (posts w3)
    (EvHandleNetworkFailure em p
     :: EvLog LWarn "PROXY" ""
     :: EvLog LError "REQUEST" (message e)
     :: trace w3).

(** The outer iteration started in [w] selects [acct], resolves [proxy]
    and gets through phase A: the completion POST is about to be issued,
    in world [w2], for the chat [cid]. *)
Definition reaches_completion (body : JsVal) (w : World AM) (acct : AccountInfo)
    (proxy : option string) (stream cid : JsVal) (w2 : World AM) : Prop :=
  exists a1 a2 model,
    getNextAccount (am w) = (Some acct, a1)
    /\ getProxyForAccount (email acct) a1 = (proxy, a2)
    /\ get_prop "stream" body = Returned stream
    /\ get_prop "model" body = Returned model
    /\ generateChatID (token acct) model (email acct) proxy
         (with_agent proxy (after_select acct proxy a2 w)) = (Returned cid, w2)
    /\ truthy cid = true.

(** The same, but phase A came back without an identifier. *)
Definition phase_A_fails (body : JsVal) (w : World AM) (acct : AccountInfo)
    (w2 : World AM) : Prop :=
  exists a1 proxy a2 stream model cid,
    getNextAccount (am w) = (Some acct, a1)
    /\ getProxyForAccount (email acct) a1 = (proxy, a2)
    /\ get_prop "stream" body = Returned stream
    /\ get_prop "model" body = Returned model
    /\ generateChatID (token acct) model (email acct) proxy
         (with_agent proxy (after_select acct proxy a2 w)) = (Returned cid, w2)
    /\ truthy cid = false.

(** Phase A aborts at once: started in [w], it returns [null] having
    issued a single POST. *)
Definition aborts_at_once (run : outcome JsVal * World AM) (w : World AM) : Prop :=
  fst run = Returned JNull /\ posts (snd run) = S (posts w).

(** The dispatch started in [w] ends in the tagged failure after [k]
    account selections. *)
Definition gives_up_after (k : nat) (run : outcome ChatResult * World AM)
    (w : World AM) : Prop :=
  fst run = Returned failure
  /\ length (selections (trace (snd run))) = (k + length (selections (trace w)))%nat.

(** What a success record stands for in the world [w'] it is returned in:
    the newest event is the completion POST answered with HTTP 200, the
    record carries that response's payload, and its token is the token of
    the account selected last, the one the POST was authorized with. *)
Definition success_of (body : JsVal) (r : ChatResult) (w' : World AM) : Prop :=
  exists acct cid cfg payload t,
    r = success (token acct) payload
    /\ trace w' = EvPost (Completions cid body) cfg (Resolved (mkResponse 200 payload)) :: t
    /\ authorization cfg = "Bearer " ++ token acct
    /\ head (selections (trace w')) = Some (Some acct).

End Dispatcher.

(** *** A small account manager to run the dispatcher on concrete inputs

    Accounts are handed out round robin; every account shares one bound
    proxy; a reported failure rebinds to the next spare proxy, or to no
    proxy when the spares are used up. *)
Record Pool : Type := mkPool {
  pool_accounts : list AccountInfo;
  pool_bound : option string;
  pool_spares : list string
}.

#[export] Instance Pool_manager : AccountManager Pool := {
  getNextAccount p :=
    match pool_accounts p with
    | [] => (None, p)
    | a :: rest => (Some a, mkPool (rest ++ [a])%list (pool_bound p) (pool_spares p))
    end;
  getProxyForAccount _ p := (pool_bound p, p);
  handleNetworkFailure _ _ p :=
    match pool_spares p with
    | [] => mkPool (pool_accounts p) None []
    | q :: rest => mkPool (pool_accounts p) (Some q) rest
    end
}.

Definition start (p : Pool) : World Pool := mkWorld p 0 [].

(** Upstream scripts: the outcomes of the POSTs in order; once the script
    is over every POST is refused. *)
Definition script (l : list PostOutcome) (n : nat) : PostOutcome :=
  nth n l (Rejected (mkError (Some "ERR_BAD_REQUEST") "Request failed with status code 400")).

Definition scripted (l : list PostOutcome) : Upstream :=
  {| upstream := script l; agent_error := fun _ => None |}.

Definition alice : AccountInfo := mkAccountInfo "tokA" "alice@example.com".
Definition bob : AccountInfo := mkAccountInfo "tokB" "bob@example.com".

Definition chat_created (id : string) : PostOutcome :=
  Resolved (mkResponse 200 (JObj [("success", JBool true); ("data", JObj [("id", JStr id)])])).
Definition chat_malformed : PostOutcome :=
  Resolved (mkResponse 200 (JObj [("success", JBool true)])).
Definition completed (st : Z) (payload : string) : PostOutcome :=
  Resolved (mkResponse st (JStr payload)).
Definition conn_reset : PostOutcome :=
  Rejected (mkError (Some "ECONNRESET") "read ECONNRESET").
Definition socket_hang_up : PostOutcome :=
  Rejected (mkError None "socket hang up").
Definition bad_request : PostOutcome :=
  Rejected (mkError (Some "ERR_BAD_REQUEST") "Request failed with status code 401").

Definition chat_body : JsVal := JObj [("model", JStr "qwen3-max"); ("stream", JBool false)].

(** The failures reported to the account manager in a trace, newest
    first: the arguments of each [handleNetworkFailure]. *)
Fixpoint reports (t : list Event) : list (string * string) :=
  match t with
  | [] => []
  | EvHandleNetworkFailure em p :: rest => (em, p) :: reports rest
  | _ :: rest => reports rest
  end.

(** An account manager without proxies: accounts are handed out round
    robin and no account is ever bound to a proxy. *)
#[export] Instance Direct_manager : AccountManager (list AccountInfo) := {
  getNextAccount l :=
    match l with
    | [] => (None, l)
    | a :: rest => (Some a, (rest ++ [a])%list)
    end;
  getProxyForAccount _ l := (None, l);
  handleNetworkFailure _ _ l := l
}.

(** [needle] occurs in [hay]. *)
Definition occurs_in (needle hay : string) : Prop :=
  exists pre post, hay = pre ++ needle ++ post.

End Request.

(** ** The persistence store ([src/utils/data-persistence.js]) *)

Module Persistence.

(** The own properties of a plain JavaScript object, as a map from keys
    to values. *)
Abbreviation Obj := (gmap string JsVal).

(** The prototype of an object the class assigns to by key. An object made
    by a literal or by [JSON.parse] has [Object.prototype], which carries
    the accessor [__proto__]; through that accessor the prototype can be
    replaced by [null] or by another plain object, given here by its own
    properties. *)
Inductive Proto : Type :=
| ProtoDefault
| ProtoNull
| ProtoObject (fields : list (string * JsVal)).

(** An object the class assigns to by key ([data.proxyBindings],
    [data.settings]): its own properties and its prototype. *)
Record Dict : Type := mkDict { own : Obj; proto : Proto }.

(** An object made by a literal or by [JSON.parse]. *)
Definition plain (m : Obj) : Dict := mkDict m ProtoDefault.

(** [{}] *)
#[export] Instance Dict_empty : Empty Dict := plain ∅.

(** The own property [k] of an object, if it has one. *)
#[export] Instance Dict_lookup : Lookup string JsVal Dict := fun k o => own o !! k.

(** [k] is an own property of the object literal [fs]. *)
Fixpoint has_field (k : string) (fs : list (string * JsVal)) : bool :=
  match fs with
  | [] => false
  | (k', _) :: rest => String.eqb k k' || has_field k rest
  end.

(** The setter of the accessor [Object.prototype.__proto__], called on [o]
    with [v]: an object or [null] becomes the prototype of [o], any other
    value is ignored. No own property of [o] is touched. *)
Definition set_prototype (v : JsVal) (o : Dict) : Dict :=
  match v with
  | JObj fs => mkDict (own o) (ProtoObject fs)
  | JNull => mkDict (own o) ProtoNull
  | _ => o
  end.

(** [o[k] = v]. An own property [k] is overwritten. Otherwise the
    prototype chain is searched for [k]: the only property there that is
    not a plain writable one is the accessor [__proto__] of
    [Object.prototype], so for every other key, and for [__proto__] when
    the chain does not reach that accessor (a [null] prototype, or a
    prototype with an own property of that name), the assignment creates
    the own property; for [__proto__] on a chain that reaches the accessor
    its setter runs instead and nothing is stored. *)
Definition assign (k : string) (v : JsVal) (o : Dict) : Dict :=
  let stored := mkDict (<[k := v]> (own o)) (proto o) in
  if String.eqb k "__proto__" then
    match own o !! k with
    | Some _ => stored
    | None =>
        match proto o with
        | ProtoDefault => set_prototype v o
        | ProtoNull => stored
        | ProtoObject fs => if has_field k fs then stored else set_prototype v o
        end
    end
  else stored.

(** The persisted document. A key can be missing from a document read
    back from the backing store; such a key is [None]. *)
Record Doc : Type := mkDoc {
  accounts : option (list Obj);
  proxyBindings : option Dict;
  proxyStatuses : option Obj;
  settings : option Dict
}.

(** [_getDefaultData()] *)
Definition _getDefaultData : Doc := mkDoc (Some []) (Some ∅) (Some ∅) (Some ∅).

(** What lies outside the class: the JSON codec and the faults of the file
    system and of the cache service. *)
Class Backend : Type := {
  (** [JSON.parse]: throws a [SyntaxError], or yields [null] ([None]) or
      an object, read as a document *)
  JSON_parse : string -> outcome (option Doc);
  (** [JSON.stringify(data, ...)] *)
  JSON_stringify : Doc -> string;
  (** the error the n-th call to [fs] or [redis] fails with, if it fails *)
  io_fault : nat -> option Error
}.

(** The instance of [DataPersistence] together with the backing stores:
    the fields of the object, the content of [data/data.json] ([None]: no
    such file), the value under the key [qwen_proxy_data] ([None]: no such
    key), the number of I/O calls made and the log, newest line first. *)
Record Store : Type := mkStore {
  mode : string;
  cache : option Doc;
  isInitialized : bool;
  initializationPromise : outcome unit;
  file : option string;
  redis_data : option string;
  ios : nat;
  log : list (LogLevel * string * string)
}.

Definition set_cache (c : option Doc) (s : Store) : Store :=
  mkStore (mode s) c (isInitialized s) (initializationPromise s)
          (file s) (redis_data s) (ios s) (log s).

Definition set_isInitialized (b : bool) (s : Store) : Store :=
  mkStore (mode s) (cache s) b (initializationPromise s)
          (file s) (redis_data s) (ios s) (log s).

Definition set_initializationPromise (o : outcome unit) (s : Store) : Store :=
  mkStore (mode s) (cache s) (isInitialized s) o
          (file s) (redis_data s) (ios s) (log s).

Definition set_file (f : option string) (s : Store) : Store :=
  mkStore (mode s) (cache s) (isInitialized s) (initializationPromise s)
          f (redis_data s) (ios s) (log s).

Definition set_redis_data (v : option string) (s : Store) : Store :=
  mkStore (mode s) (cache s) (isInitialized s) (initializationPromise s)
          (file s) v (ios s) (log s).

Definition tick (s : Store) : Store :=
  mkStore (mode s) (cache s) (isInitialized s) (initializationPromise s)
          (file s) (redis_data s) (S (ios s)) (log s).

Definition add_log (l : LogLevel * string * string) (s : Store) : Store :=
  mkStore (mode s) (cache s) (isInitialized s) (initializationPromise s)
          (file s) (redis_data s) (ios s) (l :: log s).

Definition ENOENT : Error :=
  mkError (Some "ENOENT") "ENOENT: no such file or directory, open 'data/data.json'".

(** [error.code === c] *)
Definition code_is (error : Error) (c : string) : bool :=
  match code error with
  | Some c' => String.eqb c' c
  | None => false
  end.

(** [findIndex]: the first index whose element satisfies [p]; [None] is -1. *)
Fixpoint findIndex {A : Type} (p : A -> bool) (l : list A) : option nat :=
  match l with
  | [] => None
  | x :: rest => if p x then Some 0 else S <$> findIndex p rest
  end.

(** [acc => acc.email === email] *)
Definition has_email (email : string) (acc : Obj) : bool :=
  match acc !! "email" with
  | Some (JStr s) => String.eqb s email
  | _ => false
  end.

(** What [saveAccount] does to [data] between [_getData] and [_saveData]. *)
Definition saveAccount_data (email : string) (accountData : Obj) (data : Doc)
  : outcome Doc :=
  match accounts data with
  | None => Thrown (TypeError "findIndex")
  | Some accs =>
      let accs' :=
        match findIndex (has_email email) accs with
        | Some index => alter (fun acc => accountData ∪ acc) index accs
        | None => (accs ++ [accountData ∪ {[ "email" := JStr email ]}])%list
        end in
      Returned (mkDoc (Some accs') (proxyBindings data) (proxyStatuses data) (settings data))
  end.

(** What [saveProxyBinding] does to [data]:
    [data.proxyBindings[email] = proxyUrl]. *)
Definition saveProxyBinding_data (email : string) (proxyUrl : JsVal) (data : Doc)
  : outcome Doc :=
  match proxyBindings data with
  | None => Thrown (TypeError email)
  | Some b =>
      Returned (mkDoc (accounts data) (Some (assign email proxyUrl b))
                      (proxyStatuses data) (settings data))
  end.

(** What [saveProxyStatuses] does to [data]. *)
Definition saveProxyStatuses_data (statuses : Obj) (data : Doc) : Doc :=
  mkDoc (accounts data) (proxyBindings data) (Some statuses) (settings data).

(** What [saveSetting] does to [data]:
    [if (!data.settings) data.settings = {}; data.settings[key] = value]. *)
Definition saveSetting_data (key : string) (value : JsVal) (data : Doc) : Doc :=
  let st := match settings data with Some st => st | None => ∅ end in
  mkDoc (accounts data) (proxyBindings data) (proxyStatuses data)
        (Some (assign key value st)).

Section Common.
Context {be : Backend}.

Local Open Scope js_scope.

Definition get : M Store Store := fun s => (Returned s, s).

Definition logger (lvl : LogLevel) (tag detail : string) : M Store unit :=
  modify (add_log (lvl, tag, detail)).

(** One call to the file system or to the cache service: it fails when
    the fault oracle says so. *)
Definition io : M Store unit :=
  fun s =>
    match io_fault (ios s) with
    | Some e => (Thrown e, tick s)
    | None => (Returned tt, tick s)
    end.

(** [fs.readFile(this.filePath, 'utf8')] *)
Definition fs_readFile : M Store string :=
  io ;;;
  s <- get ;;
  match file s with
  | Some content => ret content
  | None => throw ENOENT
  end.

(** [fs.mkdir(path.dirname(this.filePath), { recursive: true })] *)
Definition fs_mkdir : M Store unit := io.

(** [fs.writeFile(this.filePath, content, 'utf8')] *)
Definition fs_writeFile (content : string) : M Store unit :=
  io ;;; modify (set_file (Some content)).

(** [redis.get('qwen_proxy_data')] *)
Definition redis_get : M Store (option string) :=
  io ;;; s <- get ;; ret (redis_data s).

(** [redis.set('qwen_proxy_data', value)] *)
Definition redis_set (value : string) : M Store unit :=
  io ;;; modify (set_redis_data (Some value)).

(** [_saveData(data)], the same in both versions of the class. *)
Definition _saveData (data : Doc) : M Store unit :=
  modify (set_cache (Some data)) ;;;
  try_catch
    (s <- get ;;
     if String.eqb (mode s) "file" then
       fs_mkdir ;;; fs_writeFile (JSON_stringify data)
     else if String.eqb (mode s) "redis" then
       redis_set (JSON_stringify data)
     else ret tt)
    (fun error => logger LError "DATA" (message error)).

(** [data ? JSON.parse(data) : this._getDefaultData()] *)
Definition parse_or_default (data : option string) : M Store (option Doc) :=
  match data with
  | Some text =>
      if truthy_str (Some text) then lift_outcome (JSON_parse text)
      else ret (Some _getDefaultData)
  | None => ret (Some _getDefaultData)
  end.

(** The store a constructor starts from: [process.env.DATA_SAVE_MODE ||
    'none'], an empty cache, the backing stores as they are. *)
Definition fresh (env_mode : option string) (file0 redis0 : option string) : Store :=
  let m := match env_mode with
           | Some m => if truthy_str (Some m) then m else "none"
           | None => "none"
           end in
  mkStore m None false (Returned tt) file0 redis0 0 [].

(** *** The accessors, the same in both versions of the class

    [getData] is the [_getData] of the version; it resolves to a document
    or to [null] ([None]), on which a property access throws. *)
Section Accessors.
Variable getData : M Store (option Doc).

Definition the_data (data : option Doc) (prop : string) : M Store Doc :=
  match data with
  | Some d => ret d
  | None => throw (TypeError prop)
  end.

Definition loadAccounts : M Store (list Obj) :=
  data <- getData ;;
  d <- the_data data "accounts" ;;
  ret (match accounts d with Some l => l | None => [] end).

Definition saveAccount (email : string) (accountData : Obj) : M Store unit :=
  data <- getData ;;
  d <- the_data data "accounts" ;;
  d' <- lift_outcome (saveAccount_data email accountData d) ;;
  _saveData d'.

Definition loadProxyBindings : M Store Dict :=
  data <- getData ;;
  d <- the_data data "proxyBindings" ;;
  ret (match proxyBindings d with Some b => b | None => ∅ end).

Definition saveProxyBinding (email : string) (proxyUrl : JsVal) : M Store unit :=
  data <- getData ;;
  d <- the_data data "proxyBindings" ;;
  d' <- lift_outcome (saveProxyBinding_data email proxyUrl d) ;;
  _saveData d'.

Definition loadProxyStatuses : M Store Obj :=
  data <- getData ;;
  d <- the_data data "proxyStatuses" ;;
  ret (match proxyStatuses d with Some b => b | None => ∅ end).

Definition saveProxyStatuses (statuses : Obj) : M Store unit :=
  data <- getData ;;
  d <- the_data data "proxyStatuses" ;;
  _saveData (saveProxyStatuses_data statuses d).

Definition loadSettings : M Store Dict :=
  data <- getData ;;
  d <- the_data data "settings" ;;
  ret (match settings d with Some b => b | None => ∅ end).

Definition saveSetting (key : string) (value : JsVal) : M Store unit :=
  data <- getData ;;
  d <- the_data data "settings" ;;
  _saveData (saveSetting_data key value d).

End Accessors.
End Common.

(** *** The first version of the class (lines 1-133): initialization runs
    once in [_initialize], and [_getData] waits for it *)
Module V1.
Section V1.
Context {be : Backend}.

Local Open Scope js_scope.

Definition _initialize : M Store unit :=
  s <- get ;;
  if isInitialized s then ret tt
  else
    try_catch
      ((if String.eqb (mode s) "file" then
          try_catch
            (data <- fs_readFile ;;
             d <- lift_outcome (JSON_parse data) ;;
             modify (set_cache d))
            (fun error =>
               if code_is error "ENOENT" then
                 logger LInfo "FILE" "" ;;;
                 _saveData _getDefaultData ;;;
                 logger LSuccess "FILE" ""
               else throw error)
        else if String.eqb (mode s) "redis" then
          data <- redis_get ;;
          d <- parse_or_default data ;;
          modify (set_cache d)
        else modify (set_cache (Some _getDefaultData))) ;;;
       modify (set_isInitialized true) ;;;
       logger LInfo "DATA" (mode s))
      (fun error =>
         logger LError "DATA" (message error) ;;;
         modify (set_isInitialized false) ;;;
         throw error).

(** The constructor: [this.initializationPromise = this._initialize()]. *)
Definition new_DataPersistence (env_mode : option string) (file0 redis0 : option string)
  : Store :=
  let (r, s) := _initialize (fresh env_mode file0 redis0) in
  set_initializationPromise r s.

(** [await this.initializationPromise; return this.cache || this._getDefaultData()] *)
Definition _getData : M Store (option Doc) :=
  s <- get ;;
  match initializationPromise s with
  | Thrown e => throw e
  | Returned _ =>
      ret (Some (match cache s with Some d => d | None => _getDefaultData end))
  end.

End V1.
End V1.

(** *** The second version of the class (lines 135-264): [_getData] reads
    the backing store itself while the cache is empty *)
Module V2.
Section V2.
Context {be : Backend}.

Local Open Scope js_scope.

Definition _getData : M Store (option Doc) :=
  s <- get ;;
  match cache s with
  | Some d => ret (Some d)
  | None =>
      r <- try_catch
             (if String.eqb (mode s) "file" then
                data <- fs_readFile ;;
                d <- lift_outcome (JSON_parse data) ;;
                modify (set_cache d) ;;;
                ret (CReturn d)
              else if String.eqb (mode s) "redis" then
                data <- redis_get ;;
                d <- parse_or_default data ;;
                modify (set_cache d) ;;;
                ret (CReturn d)
              else ret CNext)
             (fun error =>
                if code_is error "ENOENT" then
                  logger LInfo "FILE" "" ;;;
                  _saveData _getDefaultData ;;;
                  logger LSuccess "FILE" "" ;;;
                  ret (CReturn (Some _getDefaultData))
                else
                  logger LError "DATA" (message error) ;;;
                  ret CNext) ;;
      match r with
      | CReturn d => ret d
      | _ => ret (Some _getDefaultData)
      end
  end.

Definition _initialize : M Store unit :=
  s <- get ;;
  try_catch
    (_getData ;;; logger LInfo "DATA" (mode s))
    (fun error => logger LError "DATA" (message error) ;;; throw error).

(** The constructor: [this._initializationPromise = this._initialize()]. *)
Definition new_DataPersistence (env_mode : option string) (file0 redis0 : option string)
  : Store :=
  let (r, s) := _initialize (fresh env_mode file0 redis0) in
  set_initializationPromise r s.

End V2.
End V2.

(** The document [_getData] of the first version hands out:
    [this.cache || this._getDefaultData()]. *)
Definition current (s : Store) : Doc :=
  match cache s with
  | Some d => d
  | None => _getDefaultData
  end.

(** The backing store of the mode holds the default document. *)
Definition holds_default {be : Backend} (s : Store) : Prop :=
  (mode s = "file" /\ file s = Some (JSON_stringify _getDefaultData))
  \/ (mode s = "redis" /\ redis_data s = Some (JSON_stringify _getDefaultData)).

(** *** A backend to run the store on concrete inputs

    It writes every document as the text [sample_text] and parses that text
    back to the default document; [null] parses to [null], any other text
    is a syntax error. No call fails, except those [faulty] names. *)
Definition sample_text : string := "{accounts:[],proxyBindings:{},proxyStatuses:{},settings:{}}".

Definition SyntaxError : Error := mkError None "Unexpected token in JSON".

Definition sample_parse (text : string) : outcome (option Doc) :=
  if String.eqb text sample_text then Returned (Some _getDefaultData)
  else if String.eqb text "null" then Returned None
  else Thrown SyntaxError.

Definition EACCES : Error := mkError (Some "EACCES") "EACCES: permission denied".

Definition sample_backend (faulty : list nat) : Backend :=
  {| JSON_parse := sample_parse;
     JSON_stringify := fun _ => sample_text;
     io_fault := fun n => if existsb (Nat.eqb n) faulty then Some EACCES else None |}.

Definition alice_account : Obj :=
  {[ "email" := JStr "alice@example.com"; "password" := JStr "pw-a" ]}.
Definition bob_account : Obj :=
  {[ "email" := JStr "bob@example.com"; "password" := JStr "pw-b" ]}.

Definition two_accounts : Doc :=
  mkDoc (Some [alice_account; bob_account])
        (Some (plain {[ "alice@example.com" := JStr "socks5://p1" ]}))
        (Some ∅)
        None.

(** A store in mode [file] whose file was missing; the fourth I/O call,
    the [mkdir] of the first save after the initialization, fails. *)
Definition file_store : Store :=
  V1.new_DataPersistence (be := sample_backend [3]) (Some "file") None None.

(** A store in mode [none] holding [two_accounts]. *)
Definition memory_store : Store :=
  set_cache (Some two_accounts)
    (V1.new_DataPersistence (be := sample_backend []) None None None).

(** A store in mode [none] holding a document with the [accounts] key
    only, as the server writes it when it seeds [data.json] from the
    environment. *)
Definition seeded_store : Store :=
  set_cache (Some (mkDoc (Some [alice_account]) None None None))
    (V1.new_DataPersistence (be := sample_backend []) None None None).

(** A store in mode [none] holding the empty object. *)
Definition empty_object_store : Store :=
  set_cache (Some (mkDoc None None None None))
    (V1.new_DataPersistence (be := sample_backend []) None None None).

(** A store in mode [file] over a file that does not parse. *)
Definition rejected_store : Store :=
  V1.new_DataPersistence (be := sample_backend []) (Some "file") (Some "{oops") None.

(** A backend whose codec tells a document with accounts from the others:
    it writes such a document as [accounts_text], which parses back to
    [two_accounts], and is the sample backend on every other document and
    text. No call fails. *)
Definition accounts_text : string := "{accounts:[alice,bob],proxyBindings:{alice:p1},proxyStatuses:{}}".

Definition accounts_backend : Backend :=
  {| JSON_parse := fun text => if String.eqb text accounts_text
                               then Returned (Some two_accounts)
                               else sample_parse text;
     JSON_stringify := fun d => match accounts d with
                                | Some (_ :: _) => accounts_text
                                | _ => sample_text
                                end;
     io_fault := fun _ => None |}.

(** Stores of the first version, in mode [file] and in mode [redis], over
    a backing store that holds the default document. *)
Definition default_file_store : Store :=
  V1.new_DataPersistence (be := accounts_backend) (Some "file") (Some sample_text) None.

Definition default_redis_store : Store :=
  V1.new_DataPersistence (be := accounts_backend) (Some "redis") None (Some sample_text).

(** Unfold the primitives of the store, then the monad. *)
Ltac unfold_store :=
  unfold fs_readFile, fs_mkdir, fs_writeFile, redis_get, redis_set, parse_or_default,
    logger, the_data;
  unfold io, get;
  unfold bind, try_catch, modify, ret, throw, lift_outcome.

End Persistence.

(** ** Start-up configuration ([src/utils/pre-config.js] and the seeding
    of accounts in the server's entry file) *)

Module Startup.

(** [s.split(sep)] for a separator of one character: the pieces between
    the separators, at least one. *)
Fixpoint split_on (sep : Ascii.ascii) (s : string) : list string :=
  match s with
  | EmptyString => [""]
  | String c rest =>
      if Ascii.eqb c sep then "" :: split_on sep rest
      else match split_on sep rest with
           | piece :: pieces => String c piece :: pieces
           | [] => [String c ""]
           end
  end.

(** [pieces.join(sep)] *)
Fixpoint join (sep : string) (pieces : list string) : string :=
  match pieces with
  | [] => ""
  | [piece] => piece
  | piece :: rest => piece ++ sep ++ join sep rest
  end.

Definition LF : Ascii.ascii := Ascii.ascii_of_nat 10.
Definition CR : Ascii.ascii := Ascii.ascii_of_nat 13.

(** [content.split(/\r?\n/)]: a line ends at a line feed, which takes a
    carriage return right before it along. *)
Fixpoint split_lines (s : string) : list string :=
  match s with
  | EmptyString => [""]
  | String c rest =>
      if Ascii.eqb c LF then "" :: split_lines rest
      else
        match rest with
        | String d rest' =>
            if Ascii.eqb c CR && Ascii.eqb d LF then "" :: split_lines rest'
            else match split_lines rest with
                 | line :: lines => String c line :: lines
                 | [] => [String c ""]
                 end
        | EmptyString => [String c ""]
        end
  end.

(** The character [c] does not occur in [s]. *)
Fixpoint lacks (c : Ascii.ascii) (s : string) : bool :=
  match s with
  | EmptyString => true
  | String d rest => negb (Ascii.eqb d c) && lacks c rest
  end.

Definition nonempty (s : string) : bool := negb (String.eqb s "").

(** What the JavaScript runtime provides to [syncProcessSetEnv]:
    [String.prototype.trim], and the value read from [data.json] with the
    operations the function applies to it. *)
Class Runtime : Type := {
  trim : string -> string;
  (** the values [JSON.parse] yields *)
  Data : Type;
  (** [JSON.parse(text)] *)
  JSON_parse : string -> outcome Data;
  (** [JSON.stringify(data, null, 2)] *)
  JSON_stringify : Data -> string;
  (** a value the function keeps: not [!data || typeof data !== 'object'] *)
  is_object : Data -> bool;
  (** [{}] *)
  empty_object : Data;
  (** [data[key]] is truthy *)
  has_truthy : string -> Data -> bool;
  (** [data[key] = {}] and [data[key] = []] *)
  set_empty_object : string -> Data -> Data;
  set_empty_array : string -> Data -> Data;
  (** [data.settings[key] = value] *)
  set_setting : string -> string -> Data -> Data;
  (** the error the n-th call to [fs] fails with, if it fails *)
  fs_fault : nat -> option Error
}.

(** The process and its two files: [data/set-env], [data/data.json]
    ([None]: no such file), [process.env], the number of [fs] calls that
    can throw made so far, and the console, newest line first ([true]
    marks [console.error]). *)
Record Proc : Type := mkProc {
  set_env_file : option string;
  data_json_file : option string;
  env : gmap string string;
  fs_calls : nat;
  console : list (bool * string)
}.

(** [const [key, ...values] = line.split('='); const value =
    values.join('=').trim(); if (key && value) { ... key.trim() ... }]:
    the variable a line of [set-env] sets, if it sets one. *)
Definition parse_line {rt : Runtime} (line : string) : option (string * string) :=
  match split_on "="%char line with
  | key :: values =>
      let value := trim (join "=" values) in
      if nonempty key && nonempty value then Some (trim key, value) else None
  | [] => None
  end.

(** The C string node hands to [setenv(3)]: the characters before the
    first NUL. *)
Fixpoint c_str (s : string) : string :=
  match s with
  | EmptyString => ""
  | String c rest => if Ascii.eqb c Ascii.zero then "" else String c (c_str rest)
  end.

(** The variable [process.env[key] = value] sets, if it sets one. Node
    passes the name and the value to [setenv(3)] as C strings and ignores
    its failure; [setenv] fails, and sets nothing, on an empty name and on
    a name with [=]. *)
Definition env_assignment (key value : string) : option (string * string) :=
  let name := c_str key in
  if nonempty name && lacks "="%char name then Some (name, c_str value) else None.

(** The value the last line of [lines] that sets the variable [name] gives
    it. *)
Fixpoint last_assignment {rt : Runtime} (name : string) (lines : list string)
  : option string :=
  match lines with
  | [] => None
  | line :: rest =>
      match last_assignment name rest with
      | Some v => Some v
      | None =>
          match parse_line line with
          | Some (k, v) =>
              match env_assignment k v with
              | Some (n, v') => if String.eqb n name then Some v' else None
              | None => None
              end
          | None => None
          end
      end
  end.

Definition requiredKeys : list string := ["settings"; "accounts"; "proxies"; "proxyBindings"].

Section SyncProcessSetEnv.
Context {rt : Runtime}.

Local Open Scope js_scope.

Definition get : M Proc Proc := fun p => (Returned p, p).

Definition console_log (msg : string) : M Proc unit :=
  modify (fun p => mkProc (set_env_file p) (data_json_file p) (env p) (fs_calls p)
                          ((false, msg) :: console p)).

Definition console_error (msg : string) : M Proc unit :=
  modify (fun p => mkProc (set_env_file p) (data_json_file p) (env p) (fs_calls p)
                          ((true, msg) :: console p)).

(** One call to [fs] that can throw. *)
Definition fs_call : M Proc unit :=
  fun p =>
    let p' := mkProc (set_env_file p) (data_json_file p) (env p) (S (fs_calls p))
                     (console p) in
    match fs_fault (fs_calls p) with
    | Some e => (Thrown e, p')
    | None => (Returned tt, p')
    end.

Definition ENOENT : Error := mkError (Some "ENOENT") "ENOENT: no such file or directory".

(** [fs.readFileSync(path, 'utf8')] *)
Definition readFileSync (file : Proc -> option string) : M Proc string :=
  fs_call ;;;
  p <- get ;;
  match file p with
  | Some content => ret content
  | None => throw ENOENT
  end.

(** [fs.writeFileSync(DATA_JSON_FILE, content, 'utf8')] *)
Definition writeFileSync_data_json (content : string) : M Proc unit :=
  fs_call ;;;
  modify (fun p => mkProc (set_env_file p) (Some content) (env p) (fs_calls p) (console p)).

(** [fs.unlinkSync(SET_ENV_FILE)] *)
Definition unlinkSync_set_env : M Proc unit :=
  fs_call ;;;
  p <- get ;;
  match set_env_file p with
  | Some _ =>
      modify (fun p => mkProc None (data_json_file p) (env p) (fs_calls p) (console p))
  | None => throw ENOENT
  end.

(** [process.env[key] = value] *)
Definition setenv (key value : string) : M Proc unit :=
  match env_assignment key value with
  | Some (name, v) =>
      modify (fun p => mkProc (set_env_file p) (data_json_file p) (<[name := v]> (env p))
                              (fs_calls p) (console p))
  | None => ret tt
  end.

(** [requiredKeys.forEach(key => { if (!data[key]) data[key] = ... })] *)
Definition ensure_key (data : Data) (key : string) : Data :=
  if has_truthy key data then data
  else if String.eqb key "settings" || String.eqb key "proxyBindings"
       then set_empty_object key data
       else set_empty_array key data.

(** The [for (const line of lines)] loop. *)
Fixpoint process_lines (lines : list string) (data : Data) : M Proc Data :=
  match lines with
  | [] => ret data
  | line :: rest =>
      match parse_line line with
      | Some (trimmedKey, value) =>
          console_log (trimmedKey ++ "=" ++ value) ;;;
          setenv trimmedKey value ;;;
          process_lines rest (set_setting trimmedKey value data)
      | None => process_lines rest data
      end
  end.

(** [let data; if (fs.existsSync(DATA_JSON_FILE)) { try { data =
    JSON.parse(fs.readFileSync(DATA_JSON_FILE, 'utf8')); } catch (e) {
    console.error(...); data = null; } }]: [None] is [undefined] or [null]. *)
Definition read_data_json : M Proc (option Data) :=
  p <- get ;;
  match data_json_file p with
  | Some _ =>
      try_catch
        (text <- readFileSync data_json_file ;;
         d <- lift_outcome (JSON_parse text) ;;
         ret (Some d))
        (fun e => console_error (message e) ;;; ret None)
  | None => ret None
  end.

(** [if (!data || typeof data !== 'object') data = {}] and the required
    keys. *)
Definition prepare_data (read : option Data) : Data :=
  let data := match read with
              | Some d => if is_object d then d else empty_object
              | None => empty_object
              end in
  fold_left ensure_key requiredKeys data.

(** The end of the [try] block: write [data.json], remove [set-env]. *)
Definition write_back (data : Data) : M Proc unit :=
  writeFileSync_data_json (JSON_stringify data) ;;;
  unlinkSync_set_env ;;;
  console_log "done".

Definition syncProcessSetEnv : M Proc unit :=
  try_catch
    (p <- get ;;
     match set_env_file p with
     | None => ret tt
     | Some _ =>
         console_log "set-env" ;;;
         content <- readFileSync set_env_file ;;
         let lines := split_lines content in
         read <- read_data_json ;;
         data <- process_lines lines (prepare_data read) ;;
         write_back data
     end)
    (fun error => console_error (message error)).

End SyncProcessSetEnv.

(** *** The accounts the entry file seeds [data.json] with

    [accountsEnv.split(',').map(item => { const [email, password] =
    item.split(':'); return { email, password }; })]; a password that is
    [undefined] is [None]. *)
Definition parse_account (item : string) : string * option string :=
  match split_on ":"%char item with
  | em :: password :: _ => (em, Some password)
  | [em] => (em, None)
  | [] => ("", None)
  end.

Definition parse_accounts (accountsEnv : string) : list (string * option string) :=
  map parse_account (split_on ","%char accountsEnv).

(** *** A runtime to run on concrete inputs: [trim] removes spaces, tabs,
    line feeds and carriage returns; the data is the list of its settings,
    newest first, written as their number. *)
Definition is_blank (c : Ascii.ascii) : bool :=
  Ascii.eqb c " "%char || Ascii.eqb c (Ascii.ascii_of_nat 9) || Ascii.eqb c LF || Ascii.eqb c CR.

Fixpoint trim_start (s : string) : string :=
  match s with
  | String c rest => if is_blank c then trim_start rest else s
  | EmptyString => ""
  end.

Fixpoint trim_end (s : string) : string :=
  match s with
  | String c rest =>
      match trim_end rest with
      | EmptyString => if is_blank c then "" else String c ""
      | rest' => String c rest'
      end
  | EmptyString => ""
  end.

Definition sample_runtime (faulty : list nat) : Runtime :=
  {| trim := fun s => trim_end (trim_start s);
     Data := list (string * string);
     JSON_parse := fun text => if String.eqb text "[]" then Returned []
                               else Thrown (mkError None "Unexpected token in JSON");
     JSON_stringify := fun d => pretty (length d);
     is_object := fun _ => true;
     empty_object := [];
     has_truthy := fun _ _ => true;
     set_empty_object := fun _ d => d;
     set_empty_array := fun _ d => d;
     set_setting := fun k v d => (k, v) :: d;
     fs_fault := fun n => if existsb (Nat.eqb n) faulty
                          then Some (mkError (Some "EACCES") "EACCES: permission denied")
                          else None |}.

(** A [set-env] file of three lines, the first ended by a carriage return
    and a line feed, and a process that finds it at its start. *)
Definition three_lines : string :=
  "A=1" ++ String CR (String LF ("B = x=y " ++ String LF "A=2")).

Definition at_start : Proc := mkProc (Some three_lines) None {[ "C" := "0" ]} 0 [].

(** A process that finds a [set-env] file of one line whose key is a
    blank. *)
Definition at_blank_key : Proc := mkProc (Some " =v") None {[ "C" := "0" ]} 0 [].

End Startup.

(** * Properties of the dispatcher *)

Module RequestProps.
Import Request.

Section DispatcherFacts.
Context {AM : Type} {mgr : AccountManager AM} {net : Upstream}.

Lemma selections_app t1 t2 : selections (t1 ++ t2)%list = (selections t1 ++ selections t2)%list.
Proof.
  induction t1 as [|ev t1 IH]; [reflexivity|].
  destruct ev; simpl; rewrite IH; reflexivity.
Qed.

Lemma selections_agent_events proxy : selections (agent_events proxy) = [].
Proof.
  unfold agent_events. destruct proxy as [p|]; [|reflexivity].
  destruct (truthy_str (Some p)); [|reflexivity].
  destruct (agent_error p); reflexivity.
Qed.

Lemma attach_agent_run proxy (w : World AM) :
  attach_agent proxy w
  = (Returned (agent_of proxy),
     mkWorld (am w) (posts w) (agent_events proxy ++ trace w)%list).
Proof.
  unfold attach_agent, agent_of, agent_events.
  destruct w as [a n t]; simpl.
  destruct proxy as [p|]; [|reflexivity].
  destruct (negb (String.eqb p "")); [|reflexivity].
  destruct (agent_error p); reflexivity.
Qed.

Lemma attempt_created tok model em proxy le (w : World AM) r :
  upstream (posts w) = Resolved r ->
  truthy (chat_id_of r) = true ->
  generateChatID_attempt tok model em proxy le w
  = (Returned (CReturn (chat_id_of r), le, proxy), after_new_chat tok model proxy w).
Proof.
  intros Hup Hid. unfold generateChatID_attempt, bind, try_catch.
  rewrite attach_agent_run. unfold axios_post; simpl.
  rewrite Hup. fold (chat_id_of r). rewrite Hid.
  unfold after_new_chat. rewrite Hup. reflexivity.
Qed.

Lemma attempt_malformed tok model em proxy le (w : World AM) r :
  upstream (posts w) = Resolved r ->
  truthy (chat_id_of r) = false ->
  generateChatID_attempt tok model em proxy le w
  = (Returned (CNext,
               Some (new_Error "Invalid response data when generating chat_id"),
               proxy),
     after_new_chat tok model proxy w).
Proof.
  intros Hup Hid. unfold generateChatID_attempt, bind, try_catch.
  rewrite attach_agent_run. unfold axios_post; simpl.
  rewrite Hup. fold (chat_id_of r). rewrite Hid.
  unfold after_new_chat. rewrite Hup. reflexivity.
Qed.

Lemma attempt_rotates tok model em p le (w : World AM) e :
  upstream (posts w) = Rejected e ->
  retryable (Some p) e = true ->
  generateChatID_attempt tok model em (Some p) le w
  = (Returned (CNext, Some e,
               fst (getProxyForAccount em (handleNetworkFailure em p (am w)))),
     after_rotation em p e (after_new_chat tok model (Some p) w)).
Proof.
  intros Hup Hre. unfold generateChatID_attempt, bind, try_catch.
  rewrite attach_agent_run. unfold axios_post; simpl.
  rewrite Hup. unfold retryable in Hre. simpl in Hre. rewrite Hre.
  unfold log, emit, modify, am_handleNetworkFailure, am_getProxyForAccount; simpl.
  unfold after_rotation, after_new_chat; simpl. rewrite Hup.
  destruct (getProxyForAccount em (handleNetworkFailure em p (am w))); reflexivity.
Qed.

Lemma attempt_breaks tok model em proxy le (w : World AM) e :
  upstream (posts w) = Rejected e ->
  retryable proxy e = false ->
  generateChatID_attempt tok model em proxy le w
  = (Returned (CBreak, Some e, proxy),
     after_break e (after_new_chat tok model proxy w)).
Proof.
  intros Hup Hre. unfold generateChatID_attempt, bind, try_catch.
  rewrite attach_agent_run. unfold axios_post; simpl.
  rewrite Hup. unfold retryable in Hre.
  unfold after_break, after_new_chat; simpl. rewrite Hup.
  destruct proxy as [p|]; [|reflexivity].
  simpl in Hre. rewrite Hre. reflexivity.
Qed.

Lemma generateChatID_fail_run e (w : World AM) :
  generateChatID_fail (Some e) w = (Returned JNull, after_break e w).
Proof. reflexivity. Qed.

Lemma selections_after_new_chat tok model proxy (w : World AM) :
  selections (trace (after_new_chat tok model proxy w)) = selections (trace w).
Proof.
  unfold after_new_chat; simpl.
  rewrite selections_app, selections_agent_events. reflexivity.
Qed.

Lemma selections_after_rotation em p e (w : World AM) :
  selections (trace (after_rotation em p e w)) = selections (trace w).
Proof. reflexivity. Qed.

Lemma selections_after_break e (w : World AM) :
  selections (trace (after_break e w)) = selections (trace w).
Proof. reflexivity. Qed.

Lemma posts_after_new_chat tok model proxy (w : World AM) :
  posts (after_new_chat tok model proxy w) = S (posts w).
Proof. reflexivity. Qed.

Lemma posts_after_rotation em p e (w : World AM) : posts (after_rotation em p e w) = posts w.
Proof. reflexivity. Qed.

Lemma posts_after_break e (w : World AM) : posts (after_break e w) = posts w.
Proof. reflexivity. Qed.

(** The four ways one iteration of phase A continues. *)
Lemma loop_created n tok model em proxy le (w : World AM) r :
  upstream (posts w) = Resolved r ->
  truthy (chat_id_of r) = true ->
  generateChatID_loop (S n) tok model em proxy le w
  = (Returned (chat_id_of r), after_new_chat tok model proxy w).
Proof.
  intros Hup Hid. simpl. unfold bind.
  rewrite (attempt_created _ _ _ _ _ _ _ Hup Hid). reflexivity.
Qed.

Lemma loop_malformed n tok model em proxy le (w : World AM) r :
  upstream (posts w) = Resolved r ->
  truthy (chat_id_of r) = false ->
  generateChatID_loop (S n) tok model em proxy le w
  = generateChatID_loop n tok model em proxy
      (Some (new_Error "Invalid response data when generating chat_id"))
      (after_new_chat tok model proxy w).
Proof.
  intros Hup Hid. simpl. unfold bind.
  rewrite (attempt_malformed _ _ _ _ _ _ _ Hup Hid). reflexivity.
Qed.

Lemma loop_rotates n tok model em p le (w : World AM) e :
  upstream (posts w) = Rejected e ->
  retryable (Some p) e = true ->
  generateChatID_loop (S n) tok model em (Some p) le w
  = generateChatID_loop n tok model em
      (fst (getProxyForAccount em (handleNetworkFailure em p (am w))))
      (Some e)
      (after_rotation em p e (after_new_chat tok model (Some p) w)).
Proof.
  intros Hup Hre. simpl. unfold bind.
  rewrite (attempt_rotates _ _ _ _ _ _ _ Hup Hre). reflexivity.
Qed.

Lemma loop_breaks n tok model em proxy le (w : World AM) e :
  upstream (posts w) = Rejected e ->
  retryable proxy e = false ->
  generateChatID_loop (S n) tok model em proxy le w
  = (Returned JNull, after_break e (after_break e (after_new_chat tok model proxy w))).
Proof.
  intros Hup Hre. simpl. unfold bind.
  rewrite (attempt_breaks _ _ _ _ _ _ _ Hup Hre). reflexivity.
Qed.

(** Phase A always returns, with [null] or a truthy identifier, after at
    most [fuel] POSTs and without selecting an account. *)
Lemma generateChatID_loop_total fuel :
  forall tok model em proxy le w,
    (fuel = 0 -> le <> None) ->
    exists v w',
      generateChatID_loop fuel tok model em proxy le w = (Returned v, w')
      /\ (v = JNull \/ truthy v = true)
      /\ posts w <= posts w' <= posts w + fuel
      /\ selections (trace w') = selections (trace w).
Proof.
  induction fuel as [|n IH]; intros tok model em proxy le w Hle.
  - destruct le as [e|]; [|exfalso; apply Hle; reflexivity].
    exists JNull, (after_break e w). simpl. repeat split; auto; lia.
  - destruct (upstream (posts w)) as [r|e] eqn:Hup.
    + destruct (truthy (chat_id_of r)) eqn:Hid.
      * exists (chat_id_of r), (after_new_chat tok model proxy w).
        rewrite (loop_created _ _ _ _ _ _ _ _ Hup Hid).
        rewrite selections_after_new_chat, posts_after_new_chat.
        repeat split; auto; lia.
      * rewrite (loop_malformed _ _ _ _ _ _ _ _ Hup Hid).
        destruct (IH tok model em proxy
                    (Some (new_Error "Invalid response data when generating chat_id"))
                    (after_new_chat tok model proxy w))
          as (v & w' & Hrun & Hv & Hp & Hs); [discriminate|].
        exists v, w'. rewrite selections_after_new_chat in Hs.
        rewrite posts_after_new_chat in Hp.
        repeat split; auto; lia.
    + destruct (retryable proxy e) eqn:Hre.
      * destruct proxy as [p|]; [|discriminate].
        rewrite (loop_rotates _ _ _ _ _ _ _ _ Hup Hre).
        destruct (IH tok model em
                    (fst (getProxyForAccount em (handleNetworkFailure em p (am w))))
                    (Some e)
                    (after_rotation em p e (after_new_chat tok model (Some p) w)))
          as (v & w' & Hrun & Hv & Hp & Hs); [discriminate|].
        exists v, w'.
        rewrite selections_after_rotation, selections_after_new_chat in Hs.
        rewrite posts_after_rotation, posts_after_new_chat in Hp.
        repeat split; auto; lia.
      * rewrite (loop_breaks _ _ _ _ _ _ _ _ Hup Hre).
        eexists _, _. split; [reflexivity|].
        rewrite !selections_after_break, selections_after_new_chat.
        rewrite !posts_after_break, posts_after_new_chat.
        repeat split; auto; lia.
Qed.

Lemma generateChatID_total tok model em proxy (w : World AM) :
  exists v w',
    generateChatID tok model em proxy w = (Returned v, w')
    /\ (v = JNull \/ truthy v = true)
    /\ posts w <= posts w' <= posts w + MAX_RETRIES
    /\ selections (trace w') = selections (trace w).
Proof. apply generateChatID_loop_total. discriminate. Qed.

(** The [try] block, once phase A has run. *)
Lemma try_run body acct proxy le (w : World AM) stream model cid w2 :
  get_prop "stream" body = Returned stream ->
  get_prop "model" body = Returned model ->
  generateChatID (token acct) model (email acct) proxy (with_agent proxy w)
  = (Returned cid, w2) ->
  sendChatRequest_try body acct proxy le w
  = if negb (truthy cid) then
      (Returned (CReturn failure, le), logged LError "CHAT" "" w2)
    else
      let w3 := after_completion cid body stream acct proxy w2 in
      match upstream (posts w2) with
      | Resolved r =>
          if (status r =? 200)%Z
          then (Returned (CReturn (success (token acct) (data r)), le), w3)
          else (Returned (CNext, Some (non_200 r)), w3)
      | Rejected e => (Thrown e, w3)
      end.
Proof.
  intros Hs Hm Hgen. unfold sendChatRequest_try, bind, lift_outcome.
  rewrite Hs, attach_agent_run, Hm. fold (with_agent proxy w). rewrite Hgen.
  destruct (truthy cid); simpl; [|reflexivity].
  unfold axios_post, log, emit, modify, after_completion, completion_config; simpl.
  destruct (upstream (posts w2)) as [r|e]; [|reflexivity].
  destruct (status r =? 200)%Z; reflexivity.
Qed.

(** A body that is [null] or [undefined] makes the [try] block throw at
    [body.stream], before anything is sent. *)
Lemma try_body_missing body acct proxy le (w : World AM) e :
  get_prop "stream" body = Thrown e ->
  sendChatRequest_try body acct proxy le w = (Thrown e, w).
Proof.
  intros Hs. unfold sendChatRequest_try, bind, lift_outcome. rewrite Hs. reflexivity.
Qed.

Lemma get_prop_any k k' body v :
  get_prop k body = Returned v -> exists v', get_prop k' body = Returned v'.
Proof. destruct body; simpl; intros Hk; try discriminate; eauto. Qed.

Lemma catch_reports acct p e (w3 : World AM) :
  retryable (Some p) e = true ->
  sendChatRequest_catch acct (Some p) e w3
  = (Returned (CNext, Some e), after_report (email acct) p e w3).
Proof.
  intros Hre. unfold sendChatRequest_catch, bind. unfold retryable in Hre.
  simpl in *. rewrite Hre. reflexivity.
Qed.

Lemma catch_breaks acct proxy e (w3 : World AM) :
  retryable proxy e = false ->
  sendChatRequest_catch acct proxy e w3
  = (Returned (CBreak, Some e), logged LError "REQUEST" (message e) w3).
Proof.
  intros Hre. unfold sendChatRequest_catch, bind. unfold retryable in Hre.
  destruct proxy as [p|]; [|reflexivity].
  simpl in *. rewrite Hre. reflexivity.
Qed.

Lemma sendChatRequest_fail_run e (w : World AM) :
  sendChatRequest_fail (Some e) w
  = (Returned failure, logged LError "REQUEST" (message e) w).
Proof. reflexivity. Qed.

(** One outer iteration, once the account manager has answered. *)
Lemma loop_selected n body le (w : World AM) acct a1 proxy a2 :
  getNextAccount (am w) = (Some acct, a1) ->
  getProxyForAccount (email acct) a1 = (proxy, a2) ->
  sendChatRequest_loop (S n) body le w
  = match try_catch (sendChatRequest_try body acct proxy le)
                    (sendChatRequest_catch acct proxy)
                    (after_select acct proxy a2 w) with
    | (Returned (CReturn v, _), w') => (Returned v, w')
    | (Returned (CNext, le'), w') => sendChatRequest_loop n body le' w'
    | (Returned (CBreak, le'), w') => sendChatRequest_fail le' w'
    | (Thrown e, w') => (Thrown e, w')
    end.
Proof.
  intros Hacc Hpx. simpl. unfold bind at 1. unfold am_getNextAccount.
  rewrite Hacc. unfold bind at 1. unfold am_getProxyForAccount. simpl.
  rewrite Hpx. unfold bind, after_select.
  destruct (try_catch _ _ _) as [[[[v| |] le']|e] w']; reflexivity.
Qed.

Lemma loop_no_account n body le (w : World AM) a :
  getNextAccount (am w) = (None, a) ->
  sendChatRequest_loop (S n) body le w
  = (Returned failure,
     mkWorld a (posts w) (EvLog LError "ACCOUNT" "" :: EvGetNextAccount None :: trace w)).
Proof.
  intros Hacc. simpl. unfold bind at 1. unfold am_getNextAccount.
  rewrite Hacc. reflexivity.
Qed.

(** One outer iteration never lets an exception out of its [try]/[catch],
    returns only a failure or a success record, and leaves [lastError]
    set whenever the loop goes on or is left by [break]. *)
Lemma iteration_cases body acct proxy le (w0 : World AM) :
  head (selections (trace w0)) = Some (Some acct) ->
  match try_catch (sendChatRequest_try body acct proxy le)
                  (sendChatRequest_catch acct proxy) w0 with
  | (Returned (CReturn v, _), w') => v = failure \/ success_of body v w'
  | (Returned (CNext, le'), _) => le' <> None
  | (Returned (CBreak, le'), _) => le' <> None
  | (Thrown _, _) => False
  end.
Proof.
  intros Hsel. unfold try_catch.
  assert (Hcatch : forall e w3,
             match sendChatRequest_catch acct proxy e w3 with
             | (Returned (CReturn v, _), w') => v = failure \/ success_of body v w'
             | (Returned (CNext, le'), _) => le' <> None
             | (Returned (CBreak, le'), _) => le' <> None
             | (Thrown _, _) => False
             end).
  { intros e w3. destruct (retryable proxy e) eqn:Hre.
    - destruct proxy as [p|]; [|discriminate].
      rewrite (catch_reports _ _ _ _ Hre). discriminate.
    - rewrite (catch_breaks _ _ _ _ Hre). discriminate. }
  destruct (get_prop "stream" body) as [stream|e] eqn:Hs.
  2:{ rewrite (try_body_missing _ _ _ _ _ _ Hs). apply Hcatch. }
  destruct (get_prop_any _ "model" _ _ Hs) as [model Hm].
  destruct (generateChatID_total (token acct) model (email acct) proxy
              (with_agent proxy w0)) as (cid & w2 & Hgen & _ & _ & Hsel2).
  rewrite (try_run _ _ _ _ _ _ _ _ _ Hs Hm Hgen).
  destruct (truthy cid); simpl; [|left; reflexivity].
  destruct (upstream (posts w2)) as [r|e] eqn:Hup; [|apply Hcatch].
  destruct (status r =? 200)%Z eqn:Hst; [|discriminate].
  right. exists acct, cid, (completion_config acct stream proxy), (data r), 
    (EvLog LNetwork "REQUEST" "" :: trace w2).
  apply Z.eqb_eq in Hst. destruct r as [st payload]; simpl in *; subst st.
  repeat split; [rewrite Hup; reflexivity|].
  rewrite Hsel2. unfold with_agent; simpl.
  rewrite selections_app, selections_agent_events. exact Hsel.
Qed.

Lemma sendChatRequest_loop_total body fuel :
  forall le w,
    (fuel = 0 -> le <> None) ->
    exists r w',
      sendChatRequest_loop fuel body le w = (Returned r, w')
      /\ (r = failure \/ success_of body r w').
Proof.
  induction fuel as [|n IH]; intros le w Hle.
  - destruct le as [e|]; [|exfalso; apply Hle; reflexivity].
    eexists _, _. split; [apply sendChatRequest_fail_run|left; reflexivity].
  - destruct (getNextAccount (am w)) as [[acct|] a1] eqn:Hacc.
    2:{ rewrite (loop_no_account _ _ _ _ _ Hacc).
        eexists _, _. split; [reflexivity|left; reflexivity]. }
    destruct (getProxyForAccount (email acct) a1) as [proxy a2] eqn:Hpx.
    rewrite (loop_selected _ _ _ _ _ _ _ _ Hacc Hpx).
    pose proof (iteration_cases body acct proxy le (after_select acct proxy a2 w)
                  eq_refl) as Hit.
    destruct (try_catch _ _ _) as [[[[v| |] le']|e] w']; try contradiction.
    + eexists _, _. split; [reflexivity|exact Hit].
    + apply IH. intros _. exact Hit.
    + destruct le' as [e|]; [|contradiction].
      eexists _, _. split; [apply sendChatRequest_fail_run|left; reflexivity].
Qed.

(** C1. Whatever the request body is and however the account manager and
    the upstream calls behave, [sendChatRequest] returns normally, and what
    it returns is the tagged failure [{status:false, response:null}] or a
    success record: status true, the payload of the completion response
    answered with HTTP 200 and the token of the account selected for it. No
    exception leaves the function. *)
Theorem sendChatRequest_contract body (w : World AM) :
  exists r w',
    sendChatRequest body w = (Returned r, w')
    /\ (r = failure \/ success_of body r w').
Proof.
  unfold sendChatRequest.
  destruct (sendChatRequest_loop_total body MAX_RETRIES None w) as (r & w' & Hrun & Hr).
  - discriminate.
  - exists r, w'. split; assumption.
Qed.

(** C2. Phase A on a transient network error with a proxy in use: the
    failure is reported to the account manager, the newly bound proxy is
    fetched and the loop goes on with it (first part); no run of phase A
    issues more than three POSTs (second part); and when the three attempts
    all fail that way the result is [null], the error of the third attempt
    being the one logged last (third part). *)
Theorem generateChatID_transient_retry :
  (forall n tok model em p le (w : World AM) e,
      upstream (posts w) = Rejected e ->
      retryable (Some p) e = true ->
      generateChatID_loop (S n) tok model em (Some p) le w
      = generateChatID_loop n tok model em
          (fst (getProxyForAccount em (handleNetworkFailure em p (am w))))
          (Some e)
          (after_rotation em p e (after_new_chat tok model (Some p) w)))
  /\ (forall tok model em proxy (w : World AM),
        posts (snd (generateChatID tok model em proxy w)) <= posts w + 3)
  /\ (forall tok model em p0 p1 p2 e1 e2 e3 (w : World AM),
        let w1 := after_rotation em p0 e1 (after_new_chat tok model (Some p0) w) in
        let w2 := after_rotation em p1 e2 (after_new_chat tok model (Some p1) w1) in
        let w3 := after_rotation em p2 e3 (after_new_chat tok model (Some p2) w2) in
        upstream (posts w) = Rejected e1 ->
        retryable (Some p0) e1 = true ->
        fst (getProxyForAccount em (handleNetworkFailure em p0 (am w))) = Some p1 ->
        upstream (S (posts w)) = Rejected e2 ->
        retryable (Some p1) e2 = true ->
        fst (getProxyForAccount em (handleNetworkFailure em p1 (am w1))) = Some p2 ->
        upstream (S (S (posts w))) = Rejected e3 ->
        retryable (Some p2) e3 = true ->
        generateChatID tok model em (Some p0) w = (Returned JNull, after_break e3 w3)
        /\ posts w3 = posts w + 3
        /\ head (trace (after_break e3 w3)) = Some (EvLog LError "CHAT" (message e3))).
Proof.
  split; [|split].
  - intros. apply loop_rotates; assumption.
  - intros tok model em proxy w.
    destruct (generateChatID_total tok model em proxy w) as (v & w' & Hrun & _ & Hp & _).
    rewrite Hrun. simpl. unfold MAX_RETRIES in Hp. lia.
  - intros tok model em p0 p1 p2 e1 e2 e3 w w1 w2 w3 H1 R1 P1 H2 R2 P2 H3 R3.
    split; [|split]; [|simpl; lia|reflexivity].
    unfold generateChatID, MAX_RETRIES.
    rewrite (loop_rotates _ _ _ _ _ _ _ _ H1 R1), P1. fold w1.
    assert (H2' : upstream (posts w1) = Rejected e2) by exact H2.
    rewrite (loop_rotates _ _ _ _ _ _ _ _ H2' R2), P2. fold w2.
    assert (H3' : upstream (posts w2) = Rejected e3) by exact H3.
    rewrite (loop_rotates _ _ _ _ _ _ _ _ H3' R3). fold w3.
    reflexivity.
Qed.

(** C3 (as amended). Phase A aborts at once, with no further attempt, on a
    thrown error that is not both a transient network error and met with a
    proxy in use (first part). A malformed response, a success status
    without identifier, does not abort: it is recorded as the last error
    and the loop goes on to the next attempt with the same proxy and
    without a report to the account manager (second part), so that phase A
    gives up on malformed responses after three of them (third part). *)
Theorem generateChatID_abort_or_next :
  (forall n tok model em proxy le (w : World AM) e,
      upstream (posts w) = Rejected e ->
      retryable proxy e = false ->
      generateChatID_loop (S n) tok model em proxy le w
      = (Returned JNull, after_break e (after_break e (after_new_chat tok model proxy w)))
      /\ aborts_at_once (generateChatID_loop (S n) tok model em proxy le w) w)
  /\ (forall n tok model em proxy le (w : World AM) r,
        upstream (posts w) = Resolved r ->
        truthy (chat_id_of r) = false ->
        generateChatID_loop (S n) tok model em proxy le w
        = generateChatID_loop n tok model em proxy
            (Some (new_Error "Invalid response data when generating chat_id"))
            (after_new_chat tok model proxy w))
  /\ (forall tok model em proxy (w : World AM) r1 r2 r3,
        upstream (posts w) = Resolved r1 -> truthy (chat_id_of r1) = false ->
        upstream (S (posts w)) = Resolved r2 -> truthy (chat_id_of r2) = false ->
        upstream (S (S (posts w))) = Resolved r3 -> truthy (chat_id_of r3) = false ->
        exists w',
          generateChatID tok model em proxy w = (Returned JNull, w')
          /\ posts w' = posts w + 3
          /\ am w' = am w
          /\ head (trace w')
             = Some (EvLog LError "CHAT" "Invalid response data when generating chat_id")).
Proof.
  split; [|split].
  - intros n tok model em proxy le w e Hup Hre.
    unfold aborts_at_once. rewrite (loop_breaks _ _ _ _ _ _ _ _ Hup Hre).
    repeat split.
  - intros n tok model em proxy le w r Hup Hid.
    exact (loop_malformed n tok model em proxy le w r Hup Hid).
  - intros tok model em proxy w r1 r2 r3 H1 T1 H2 T2 H3 T3.
    unfold generateChatID, MAX_RETRIES.
    rewrite (loop_malformed _ _ _ _ _ _ _ _ H1 T1).
    assert (H2' : upstream (posts (after_new_chat tok model proxy w)) = Resolved r2)
      by exact H2.
    rewrite (loop_malformed _ _ _ _ _ _ _ _ H2' T2).
    assert (H3' : upstream (posts (after_new_chat tok model proxy
                                     (after_new_chat tok model proxy w))) = Resolved r3)
      by exact H3.
    rewrite (loop_malformed _ _ _ _ _ _ _ _ H3' T3).
    eexists. split; [reflexivity|]. simpl. repeat split. lia.
Qed.

(** One outer iteration that reaches the completion POST, by how the POST
    settles. *)
Lemma loop_at_completion n body le (w : World AM) acct proxy stream cid w2 :
  reaches_completion body w acct proxy stream cid w2 ->
  sendChatRequest_loop (S n) body le w
  = let w3 := after_completion cid body stream acct proxy w2 in
    match upstream (posts w2) with
    | Resolved r =>
        if (status r =? 200)%Z
        then (Returned (success (token acct) (data r)), w3)
        else sendChatRequest_loop n body (Some (non_200 r)) w3
    | Rejected e =>
        match sendChatRequest_catch acct proxy e w3 with
        | (Returned (CReturn v, _), w') => (Returned v, w')
        | (Returned (CNext, le'), w') => sendChatRequest_loop n body le' w'
        | (Returned (CBreak, le'), w') => sendChatRequest_fail le' w'
        | (Thrown e', w') => (Thrown e', w')
        end
    end.
Proof.
  intros (a1 & a2 & model & Hacc & Hpx & Hs & Hm & Hgen & Hcid).
  rewrite (loop_selected _ _ _ _ _ _ _ _ Hacc Hpx). unfold try_catch.
  rewrite (try_run _ _ _ _ _ _ _ _ _ Hs Hm Hgen), Hcid. simpl.
  destruct (upstream (posts w2)) as [r|e]; [|reflexivity].
  destruct (status r =? 200)%Z; reflexivity.
Qed.

(** C4 (as amended). A completion attempt that fails: on a thrown
    transient network error with a proxy active the failure is reported to
    the account manager and the outer loop goes on, which starts by
    selecting an account and its proxy again (first part); on any other
    thrown error the loop is left and the result is the tagged failure,
    that error being the one logged last (second part); a response with a
    status other than 200 is recorded as the last error and the outer loop
    goes on to its next attempt, without a report to the account manager
    (third part); once the attempts are used up the result is the tagged
    failure, with the last error logged (fourth part). *)
Theorem sendChatRequest_failure_policy :
  (forall n body le (w : World AM) acct p stream cid w2 e,
      reaches_completion body w acct (Some p) stream cid w2 ->
      upstream (posts w2) = Rejected e ->
      retryable (Some p) e = true ->
      sendChatRequest_loop (S n) body le w
      = sendChatRequest_loop n body (Some e)
          (after_report (email acct) p e
             (after_completion cid body stream acct (Some p) w2)))
  /\ (forall n body le (w : World AM) acct proxy stream cid w2 e,
        reaches_completion body w acct proxy stream cid w2 ->
        upstream (posts w2) = Rejected e ->
        retryable proxy e = false ->
        sendChatRequest_loop (S n) body le w
        = (Returned failure,
           logged LError "REQUEST" (message e)
             (logged LError "REQUEST" (message e)
                (after_completion cid body stream acct proxy w2))))
  /\ (forall n body le (w : World AM) acct proxy stream cid w2 r,
        reaches_completion body w acct proxy stream cid w2 ->
        upstream (posts w2) = Resolved r ->
        status r <> 200%Z ->
        sendChatRequest_loop (S n) body le w
        = sendChatRequest_loop n body (Some (non_200 r))
            (after_completion cid body stream acct proxy w2))
  /\ (forall body e (w : World AM),
        sendChatRequest_loop 0 body (Some e) w
        = (Returned failure, logged LError "REQUEST" (message e) w)).
Proof.
  split; [|split; [|split]].
  - intros n body le w acct p stream cid w2 e Hreach Hup Hre.
    rewrite (loop_at_completion n body le w _ _ _ _ _ Hreach), Hup. cbv zeta.
    rewrite (catch_reports _ _ _ _ Hre). reflexivity.
  - intros n body le w acct proxy stream cid w2 e Hreach Hup Hre.
    rewrite (loop_at_completion n body le w _ _ _ _ _ Hreach), Hup. cbv zeta.
    rewrite (catch_breaks _ _ _ _ Hre). reflexivity.
  - intros n body le w acct proxy stream cid w2 r Hreach Hup Hst.
    rewrite (loop_at_completion n body le w _ _ _ _ _ Hreach), Hup. cbv zeta.
    apply Z.eqb_neq in Hst. rewrite Hst. reflexivity.
  - reflexivity.
Qed.

(** C5. When phase A comes back without a session identifier, the dispatch
    ends there: [sendChatRequest] returns the tagged failure in the world
    phase A left, with one log line added, so that the account selected for
    this attempt is the last one selected; this holds at whichever outer
    attempt it happens, and for the first one it makes the whole dispatch a
    failure after a single account selection. *)
Theorem sendChatRequest_aborts_when_phase_A_fails n body le (w : World AM) acct w2 :
  phase_A_fails body w acct w2 ->
  sendChatRequest_loop (S n) body le w
  = (Returned failure, logged LError "CHAT" "" w2)
  /\ selections (trace (logged LError "CHAT" "" w2)) = Some acct :: selections (trace w)
  /\ gives_up_after 1 (sendChatRequest body w) w.
Proof.
  intros (a1 & proxy & a2 & stream & model & cid & Hacc & Hpx & Hs & Hm & Hgen & Hcid).
  assert (Hrun : forall k le', sendChatRequest_loop (S k) body le' w
                               = (Returned failure, logged LError "CHAT" "" w2)).
  { intros k le'. rewrite (loop_selected _ _ _ _ _ _ _ _ Hacc Hpx). unfold try_catch.
    rewrite (try_run _ _ _ _ _ _ _ _ _ Hs Hm Hgen), Hcid. reflexivity. }
  assert (Hsel : selections (trace (logged LError "CHAT" "" w2))
                 = Some acct :: selections (trace w)).
  { destruct (generateChatID_total (token acct) model (email acct) proxy
                (with_agent proxy (after_select acct proxy a2 w)))
      as (v & w' & Hrun' & _ & _ & Hsel).
    rewrite Hgen in Hrun'. injection Hrun' as _ <-.
    simpl. rewrite Hsel. unfold with_agent; simpl.
    rewrite selections_app, selections_agent_events. reflexivity. }
  split; [apply Hrun|]. split; [exact Hsel|].
  unfold gives_up_after, sendChatRequest, MAX_RETRIES. rewrite Hrun. simpl fst. simpl snd.
  split; [reflexivity|]. rewrite Hsel. reflexivity.
Qed.

(** C6. When [getNextAccount] yields no account, [sendChatRequest] returns
    the tagged failure at once: the only things that happened are that
    call and one log line, so no POST was issued and no further attempt
    made; the same holds at any later outer attempt. *)
Theorem sendChatRequest_without_account n body le (w : World AM) a :
  getNextAccount (am w) = (None, a) ->
  sendChatRequest body w
  = (Returned failure,
     mkWorld a (posts w) (EvLog LError "ACCOUNT" "" :: EvGetNextAccount None :: trace w))
  /\ sendChatRequest_loop (S n) body le w
     = (Returned failure,
        mkWorld a (posts w) (EvLog LError "ACCOUNT" "" :: EvGetNextAccount None :: trace w)).
Proof.
  intros Hacc. split.
  - unfold sendChatRequest, MAX_RETRIES. apply loop_no_account. exact Hacc.
  - apply loop_no_account. exact Hacc.
Qed.

End DispatcherFacts.

(** *** Concrete runs *)

(** Three transient failures in a row, a fresh proxy being bound after
    each: phase A gives up after three POSTs. *)
Lemma generateChatID_transient_retry_witness :
  let net := scripted [conn_reset; socket_hang_up; conn_reset] in
  let w := start (mkPool [alice] (Some "socks5://p0")
                         ["socks5://p1"; "socks5://p2"; "socks5://p3"]) in
  let run := generateChatID (net := net) "tokA" (JStr "qwen3-max")
               "alice@example.com" (Some "socks5://p0") w in
  fst run = Returned JNull
  /\ posts (snd run) = 3
  /\ pool_bound (am (snd run)) = Some "socks5://p3"
  /\ head (trace (snd run)) = Some (EvLog LError "CHAT" "read ECONNRESET").
Proof.
  intros net w run.
  destruct (proj2 (proj2 (generateChatID_transient_retry (net := net)))
              "tokA" (JStr "qwen3-max") "alice@example.com"
              "socks5://p0" "socks5://p1" "socks5://p2"
              (mkError (Some "ECONNRESET") "read ECONNRESET")
              (mkError None "socket hang up")
              (mkError (Some "ECONNRESET") "read ECONNRESET")
              w) as (Hrun & _ & _); try reflexivity.
  unfold run. rewrite Hrun. repeat split.
Defined.

(** The first POST of phase A is answered without an identifier and the
    second with one: phase A does not abort on the first, it returns the
    identifier of the second. *)
Lemma malformed_response_is_retried :
  let net := scripted [chat_malformed; chat_created "c1"] in
  let w := start (mkPool [alice] None []) in
  (exists r, upstream (Upstream := net) (posts w) = Resolved r
             /\ truthy (chat_id_of r) = false)
  /\ ~ aborts_at_once
        (generateChatID (net := net) "tokA" (JStr "qwen3-max") "alice@example.com" None w)
        w.
Proof.
  intros net w. split.
  - eexists. split; reflexivity.
  - intros [Hnull _]. vm_compute in Hnull. discriminate.
Defined.

Lemma generateChatID_abort_or_next_witness :
  let w := start (mkPool [alice] (Some "socks5://p0") ["socks5://p1"]) in
  aborts_at_once
    (generateChatID_loop (net := scripted [bad_request]) 3 "tokA" (JStr "qwen3-max")
       "alice@example.com" (Some "socks5://p0") None w) w
  /\ aborts_at_once
       (generateChatID_loop (net := scripted [conn_reset]) 3 "tokA" (JStr "qwen3-max")
          "alice@example.com" None None w) w
  /\ generateChatID_loop (net := scripted [chat_malformed]) 3 "tokA" (JStr "qwen3-max")
       "alice@example.com" (Some "socks5://p0") None w
     = generateChatID_loop (net := scripted [chat_malformed]) 2 "tokA" (JStr "qwen3-max")
         "alice@example.com" (Some "socks5://p0")
         (Some (new_Error "Invalid response data when generating chat_id"))
         (after_new_chat (net := scripted [chat_malformed]) "tokA" (JStr "qwen3-max")
            (Some "socks5://p0") w).
Proof.
  intros w. split; [|split].
  - apply (proj1 (generateChatID_abort_or_next (net := scripted [bad_request])))
      with (e := mkError (Some "ERR_BAD_REQUEST") "Request failed with status code 401");
      reflexivity.
  - apply (proj1 (generateChatID_abort_or_next (net := scripted [conn_reset])))
      with (e := mkError (Some "ECONNRESET") "read ECONNRESET");
      reflexivity.
  - apply (proj1 (proj2 (generateChatID_abort_or_next (net := scripted [chat_malformed]))))
      with (r := mkResponse 200 (JObj [("success", JBool true)]));
      reflexivity.
Defined.

(** The first completion POST is answered with status 204: the dispatch
    does not end there, a second account is selected and its completion,
    answered with status 200, is returned. *)
Lemma non_200_is_retried :
  let net := scripted [chat_created "c1"; completed 204 ""; chat_created "c2";
                       completed 200 "hello"] in
  let w := start (mkPool [alice; bob] None []) in
  (exists w2 r,
      reaches_completion (net := net) chat_body w alice None (JBool false) (JStr "c1") w2
      /\ upstream (Upstream := net) (posts w2) = Resolved r
      /\ status r <> 200%Z)
  /\ ~ gives_up_after 1 (sendChatRequest (net := net) chat_body w) w
  /\ fst (sendChatRequest (net := net) chat_body w) = Returned (success "tokB" (JStr "hello"))
  /\ selections (trace (snd (sendChatRequest (net := net) chat_body w)))
     = [Some bob; Some alice].
Proof.
  intros net w. split; [|split; [|split]].
  - eexists _, _. split; [|split].
    + unfold reaches_completion. eexists _, _, _. repeat split; reflexivity.
    + reflexivity.
    + discriminate.
  - intros [Hfail _]. vm_compute in Hfail. discriminate.
  - vm_compute. reflexivity.
  - vm_compute. reflexivity.
Defined.

Lemma sendChatRequest_failure_policy_witness :
  let w := start (mkPool [alice; bob] (Some "socks5://p0") ["socks5://p1"]) in
  fst (sendChatRequest (net := scripted [chat_created "c1"; bad_request]) chat_body w)
  = Returned failure
  /\ sendChatRequest (net := scripted [chat_created "c1"; socket_hang_up]) chat_body w
     = sendChatRequest_loop (net := scripted [chat_created "c1"; socket_hang_up]) 2 chat_body
         (Some (mkError None "socket hang up"))
         (after_report "alice@example.com" "socks5://p0" (mkError None "socket hang up")
            (after_completion (net := scripted [chat_created "c1"; socket_hang_up])
               (JStr "c1") chat_body (JBool false) alice (Some "socks5://p0")
               (after_new_chat (net := scripted [chat_created "c1"; socket_hang_up])
                  "tokA" (JStr "qwen3-max") (Some "socks5://p0")
                  (after_select alice (Some "socks5://p0")
                     (mkPool [bob; alice] (Some "socks5://p0") ["socks5://p1"]) w)))).
Proof.
  intros w. split.
  - unfold sendChatRequest, MAX_RETRIES.
    rewrite (proj1 (proj2 (sendChatRequest_failure_policy
                             (net := scripted [chat_created "c1"; bad_request])))
               2 chat_body None w alice (Some "socks5://p0") (JBool false) (JStr "c1")
               (after_new_chat (net := scripted [chat_created "c1"; bad_request])
                  "tokA" (JStr "qwen3-max") (Some "socks5://p0")
                  (after_select alice (Some "socks5://p0")
                     (mkPool [bob; alice] (Some "socks5://p0") ["socks5://p1"]) w))
               (mkError (Some "ERR_BAD_REQUEST") "Request failed with status code 401")).
    + reflexivity.
    + unfold reaches_completion. eexists _, _, _. repeat split; reflexivity.
    + reflexivity.
    + reflexivity.
  - unfold sendChatRequest, MAX_RETRIES.
    apply (proj1 (sendChatRequest_failure_policy
                    (net := scripted [chat_created "c1"; socket_hang_up]))
             2 chat_body None w alice "socks5://p0" (JBool false) (JStr "c1")).
    + unfold reaches_completion. eexists _, _, _. repeat split; reflexivity.
    + reflexivity.
    + reflexivity.
Defined.

Lemma sendChatRequest_aborts_when_phase_A_fails_witness :
  let net := scripted [bad_request] in
  let w := start (mkPool [alice; bob] None []) in
  gives_up_after 1 (sendChatRequest (net := net) chat_body w) w
  /\ posts (snd (sendChatRequest (net := net) chat_body w)) = 1.
Proof.
  intros net w.
  assert (Hfail : phase_A_fails (net := net) chat_body w alice
                    (snd (generateChatID (net := net) "tokA" (JStr "qwen3-max")
                            "alice@example.com" None
                            (with_agent (net := net) None
                               (after_select alice None (mkPool [bob; alice] None []) w))))).
  { unfold phase_A_fails. eexists _, _, _, _, _, _. repeat split; reflexivity. }
  destruct (sendChatRequest_aborts_when_phase_A_fails 2 chat_body None w alice _ Hfail)
    as (Hrun & _ & Hgive).
  split; [exact Hgive|].
  unfold sendChatRequest, MAX_RETRIES. rewrite Hrun. reflexivity.
Defined.

Lemma sendChatRequest_without_account_witness :
  let net := scripted [chat_created "c1"; completed 200 "hello"] in
  let w := start (mkPool [] (Some "socks5://p0") []) in
  sendChatRequest (net := net) chat_body w
  = (Returned failure,
     mkWorld (mkPool [] (Some "socks5://p0") []) 0
             [EvLog LError "ACCOUNT" ""; EvGetNextAccount None]).
Proof.
  intros net w.
  destruct (sendChatRequest_without_account (net := net) 0 chat_body None w
              (mkPool [] (Some "socks5://p0") [])) as [Hrun _]; [reflexivity|].
  exact Hrun.
Defined.

End RequestProps.

(** * Properties of the persistence store *)

Module PersistenceProps.
Import Persistence.

Section StoreFacts.
Context {be : Backend}.

(** [_saveData] never throws and always leaves [data] in the cache; it
    touches neither the mode nor the state of the initialization. *)
Lemma saveData_run data (s : Store) :
  exists s',
    _saveData data s = (Returned tt, s')
    /\ cache s' = Some data
    /\ mode s' = mode s
    /\ isInitialized s' = isInitialized s
    /\ initializationPromise s' = initializationPromise s.
Proof.
  destruct (io_fault (ios s)) as [e0|] eqn:Hf0;
    destruct (io_fault (S (ios s))) as [e1|] eqn:Hf1;
    destruct (String.eqb (mode s) "file") eqn:Hm1;
    destruct (String.eqb (mode s) "redis") eqn:Hm2;
    unfold _saveData; unfold_store; cbn;
    rewrite ?Hm1, ?Hm2; cbn; rewrite ?Hf0; cbn; rewrite ?Hf1; cbn;
    (eexists; split; [reflexivity|repeat split]).
Qed.

(** A write that fails leaves the file as it was and one line in the log. *)
Lemma saveData_failed_write data (s : Store) e :
  mode s = "file" ->
  io_fault (ios s) = Some e ->
  _saveData data s
  = (Returned tt, add_log (LError, "DATA", message e) (tick (set_cache (Some data) s))).
Proof.
  intros Hm Hf.
  unfold _saveData; unfold_store.
  cbn. rewrite Hm. cbn. rewrite Hf. reflexivity.
Qed.

(** C7 (as amended). A save returns normally and leaves the document in
    the cache, whatever the document, the mode and the answers of the
    backing store are, also when the write fails. On a store whose
    initialization completed, the load after [save(doc)] then returns [doc]
    itself. On a store whose initialization was rejected, the load throws
    the error of the initialization although [doc] is in the cache: the
    [_getData] of the first version awaits the promise of the
    initialization before it looks at the cache. *)
Theorem load_after_save (doc : Doc) (s : Store) :
  exists s1,
    _saveData doc s = (Returned tt, s1)
    /\ cache s1 = Some doc
    /\ (initializationPromise s = Returned tt ->
        V1._getData s1 = (Returned (Some doc), s1))
    /\ (forall e, initializationPromise s = Thrown e ->
                  V1._getData s1 = (Thrown e, s1)).
Proof.
  destruct (saveData_run doc s) as (s1 & Hrun & Hc & _ & _ & Hp).
  exists s1. split; [exact Hrun|]. split; [exact Hc|]. split.
  - intros Hinit. unfold V1._getData, bind, get, ret.
    rewrite Hp, Hinit, Hc. reflexivity.
  - intros e Hinit. unfold V1._getData, bind, get, throw.
    rewrite Hp, Hinit. reflexivity.
Qed.

(** The same round trip in the second version of the class, where
    [_getData] answers from the cache as soon as there is one. *)
Lemma load_after_save_V2 (doc : Doc) (s : Store) :
  exists s1,
    _saveData doc s = (Returned tt, s1)
    /\ V2._getData s1 = (Returned (Some doc), s1).
Proof.
  destruct (saveData_run doc s) as (s1 & Hrun & Hc & _).
  exists s1. split; [exact Hrun|].
  unfold V2._getData, bind, get, ret. rewrite Hc. reflexivity.
Qed.

(** C8 (as amended). The first load on an empty backing store is not an
    error and returns the default document, whose four keys are present and
    empty. With a missing file (mode [file]) the default document is also
    saved: it is in the cache whatever happens to the write, and in the
    file once [mkdir] and [writeFile] go through (first part). With an
    absent cache key (mode [redis]) the default document is only put in the
    cache: the one call made is the [get], and nothing is written under the
    key (second part). *)
Theorem first_load_on_empty_store :
  (forall redis0,
      io_fault 0 = None ->
      let s := V1.new_DataPersistence (Some "file") None redis0 in
      V1._getData s = (Returned (Some _getDefaultData), s)
      /\ cache s = Some _getDefaultData
      /\ (io_fault 1 = None -> io_fault 2 = None -> holds_default s))
  /\ (forall file0,
        io_fault 0 = None ->
        let s := V1.new_DataPersistence (Some "redis") file0 None in
        V1._getData s = (Returned (Some _getDefaultData), s)
        /\ cache s = Some _getDefaultData
        /\ redis_data s = None
        /\ ios s = 1
        /\ ~ holds_default s)
  /\ _getDefaultData = mkDoc (Some []) (Some ∅) (Some ∅) (Some ∅).
Proof.
  split; [|split]; [| |reflexivity].
  - intros redis0 H0.
    unfold V1.new_DataPersistence, V1._initialize, V1._getData, fresh, _saveData.
    unfold_store. cbn. rewrite H0. cbn.
    destruct (io_fault 1) as [e1|] eqn:H1; cbn.
    + repeat split; intros; discriminate.
    + destruct (io_fault 2) as [e2|] eqn:H2; cbn.
      * repeat split; intros; discriminate.
      * repeat split. intros _ _. left. split; reflexivity.
  - intros file0 H0.
    unfold V1.new_DataPersistence, V1._initialize, V1._getData, fresh.
    unfold_store. cbn. rewrite H0. cbn.
    repeat split. intros [[Hm _]|[_ Hr]]; discriminate.
Qed.

(** C9 (as amended). A persisted document that does not parse. In the
    second version of the class the load does not fail: the error is
    logged and the default document is returned, the cache staying empty
    and the backing store as it is (first part). In the first version the
    error is logged and thrown again by [_initialize]: the initialization
    is rejected, and so is every load (second part). *)
Theorem corrupt_document_on_load :
  (forall (s : Store) text e,
      cache s = None ->
      io_fault (ios s) = None ->
      JSON_parse text = Thrown e ->
      code e = None ->
      (mode s = "file" /\ file s = Some text)
      \/ (mode s = "redis" /\ redis_data s = Some text /\ text <> "") ->
      V2._getData s
      = (Returned (Some _getDefaultData), add_log (LError, "DATA", message e) (tick s)))
  /\ (forall m file0 redis0 text e,
        io_fault 0 = None ->
        JSON_parse text = Thrown e ->
        code e = None ->
        (m = "file" /\ file0 = Some text)
        \/ (m = "redis" /\ redis0 = Some text /\ text <> "") ->
        let s := V1.new_DataPersistence (Some m) file0 redis0 in
        initializationPromise s = Thrown e
        /\ log s = [(LError, "DATA", message e)]
        /\ V1._getData s = (Thrown e, s)).
Proof.
  split.
  - intros s text e Hc H0 Hparse Hcode [[Hm Hf]|(Hm & Hr & Hne)].
    + unfold V2._getData. unfold_store. cbn.
      rewrite Hc, Hm. cbn. rewrite H0. cbn. rewrite Hf. cbn. rewrite Hparse.
      unfold code_is. rewrite Hcode. reflexivity.
    + apply String.eqb_neq in Hne.
      unfold V2._getData. unfold_store. cbn.
      rewrite Hc, Hm. cbn. rewrite H0. cbn. rewrite Hr. cbn. rewrite Hne. cbn.
      rewrite Hparse. unfold code_is. rewrite Hcode. reflexivity.
  - intros m file0 redis0 text e H0 Hparse Hcode [[-> ->]|(-> & -> & Hne)].
    + unfold V1.new_DataPersistence, V1._initialize, V1._getData, fresh.
      unfold_store. cbn. rewrite H0. cbn. rewrite Hparse.
      unfold code_is. rewrite Hcode. cbn. repeat split.
    + apply String.eqb_neq in Hne.
      unfold V1.new_DataPersistence, V1._initialize, V1._getData, fresh.
      unfold_store. cbn. rewrite H0. cbn. rewrite Hne. cbn. rewrite Hparse.
      cbn. repeat split.
Qed.



(** An assignment by key leaves every other own property as it was. *)
Lemma assign_lookup_ne k v (o : Dict) other :
  other <> k -> assign k v o !! other = o !! other.
Proof.
  intros Hne.
  assert (Hstored : mkDict (<[k := v]> (own o)) (proto o) !! other = o !! other).
  { unfold lookup, Dict_lookup. cbn [own]. apply lookup_insert_ne. congruence. }
  assert (Hset : set_prototype v o !! other = o !! other).
  { unfold set_prototype. destruct v; reflexivity. }
  unfold assign.
  destruct (String.eqb k "__proto__"); [|exact Hstored].
  destruct (own o !! k); [exact Hstored|].
  destruct (proto o) as [| |fs]; [exact Hset|exact Hstored|].
  destruct (has_field k fs); [exact Hstored|exact Hset].
Qed.

(** An assignment to a key other than [__proto__] stores the value as an
    own property. *)
Lemma assign_lookup_eq k v (o : Dict) :
  k <> "__proto__" -> assign k v o !! k = Some v.
Proof.
  intros Hne. apply String.eqb_neq in Hne.
  unfold assign. rewrite Hne.
  unfold lookup, Dict_lookup. cbn [own]. apply lookup_insert_eq.
Qed.

(** An assignment to [__proto__] on an object made by a literal or by
    [JSON.parse] that has no own property of that name stores nothing: the
    own properties are as before. *)
Lemma assign_accessor v (o : Dict) :
  o !! "__proto__" = None ->
  proto o = ProtoDefault ->
  own (assign "__proto__" v o) = own o.
Proof.
  intros Hown Hproto. unfold lookup, Dict_lookup in Hown.
  unfold assign. cbn [String.eqb Ascii.eqb Bool.eqb]. rewrite Hown, Hproto.
  unfold set_prototype. destruct v; reflexivity.
Qed.



End StoreFacts.

(** *** Concrete runs *)

Lemma load_after_save_witness :
  (exists s1,
      _saveData (be := sample_backend [3]) two_accounts file_store = (Returned tt, s1)
      /\ V1._getData s1 = (Returned (Some two_accounts), s1))
  /\ (exists s1,
        _saveData (be := sample_backend []) two_accounts rejected_store = (Returned tt, s1)
        /\ cache s1 = Some two_accounts
        /\ V1._getData s1 = (Thrown SyntaxError, s1)).
Proof.
  split.
  - destruct (load_after_save (be := sample_backend [3]) two_accounts file_store)
      as (s1 & Hsave & _ & Hload & _).
    exists s1. split; [exact Hsave|]. apply Hload. reflexivity.
  - destruct (load_after_save (be := sample_backend []) two_accounts rejected_store)
      as (s1 & Hsave & Hc & _ & Hthrow).
    exists s1. split; [exact Hsave|]. split; [exact Hc|]. apply Hthrow. reflexivity.
Defined.

(** Mode [file], a file that does not parse: the initialization of the
    first version is rejected. A save on that store returns normally and
    puts the document in the cache, and the load after it throws the
    syntax error of the initialization instead of returning the
    document. *)
Lemma load_after_save_on_rejected_store :
  let be := sample_backend [] in
  let s1 := snd (_saveData (be := be) two_accounts rejected_store) in
  fst (_saveData (be := be) two_accounts rejected_store) = Returned tt
  /\ cache s1 = Some two_accounts
  /\ fst (V1._getData s1) = Thrown SyntaxError
  /\ fst (V1._getData s1) <> Returned (Some two_accounts).
Proof.
  intros be s1.
  assert (Hload : fst (V1._getData s1) = Thrown SyntaxError) by reflexivity.
  split; [reflexivity|]. split; [reflexivity|]. split; [exact Hload|].
  rewrite Hload. discriminate.
Defined.

(** The write of that save fails: the file keeps the default document,
    the failure is logged, and the load still answers the saved document. *)
Example failed_write_keeps_cache :
  let s1 := snd (_saveData (be := sample_backend [3]) two_accounts file_store) in
  file s1 = Some sample_text
  /\ head (log s1) = Some (LError, "DATA", "EACCES: permission denied")
  /\ fst (V1._getData s1) = Returned (Some two_accounts).
Proof. repeat split. Qed.

(** Mode [redis], no value under the key: the first load answers the
    default document, but the key is still absent afterwards and the only
    call made was the [get]. *)
Lemma absent_cache_key_is_not_saved :
  let be := sample_backend [] in
  let s := V1.new_DataPersistence (be := be) (Some "redis") None None in
  fst (V1._getData s) = Returned (Some _getDefaultData)
  /\ ~ holds_default (be := be) (snd (V1._getData s))
  /\ redis_data (snd (V1._getData s)) = None
  /\ ios (snd (V1._getData s)) = 1.
Proof.
  intros be s. split; [reflexivity|]. split; [|split; reflexivity].
  intros [[Hm _]|[_ Hr]]; vm_compute in *; discriminate.
Defined.

Lemma first_load_on_empty_store_witness :
  let be := sample_backend [] in
  (let s := V1.new_DataPersistence (be := be) (Some "file") None None in
   V1._getData s = (Returned (Some _getDefaultData), s)
   /\ holds_default (be := be) s)
  /\ (let s := V1.new_DataPersistence (be := be) (Some "redis") None None in
      V1._getData s = (Returned (Some _getDefaultData), s)
      /\ redis_data s = None).
Proof.
  intros be. split.
  - destruct (proj1 (first_load_on_empty_store (be := be)) None eq_refl)
      as (Hload & _ & Hsaved).
    split; [exact Hload|]. apply Hsaved; reflexivity.
  - destruct (proj1 (proj2 (first_load_on_empty_store (be := be))) None eq_refl)
      as (Hload & _ & Hkey & _).
    split; [exact Hload|exact Hkey].
Defined.

(** Mode [file], a file that does not parse: in the first version of the
    class the load throws the syntax error instead of answering the
    default document. *)
Lemma corrupt_file_rejects_load :
  let be := sample_backend [] in
  let s := V1.new_DataPersistence (be := be) (Some "file") (Some "{oops") None in
  JSON_parse (Backend := be) "{oops" = Thrown SyntaxError
  /\ fst (V1._getData s) = Thrown SyntaxError
  /\ fst (V1._getData s) <> Returned (Some _getDefaultData).
Proof.
  intros be s. split; [reflexivity|]. split; [reflexivity|].
  intros H. vm_compute in H. discriminate.
Defined.

Lemma corrupt_document_on_load_witness :
  let be := sample_backend [] in
  fst (V2._getData (be := be) (fresh (Some "file") (Some "{oops") None))
  = Returned (Some _getDefaultData)
  /\ initializationPromise
       (V1.new_DataPersistence (be := be) (Some "redis") None (Some "{oops"))
     = Thrown SyntaxError.
Proof.
  intros be. split.
  - rewrite (proj1 (corrupt_document_on_load (be := be))
               (fresh (Some "file") (Some "{oops") None) "{oops" SyntaxError
               eq_refl eq_refl eq_refl eq_refl (or_introl (conj eq_refl eq_refl))).
    reflexivity.
  - refine (proj1 (proj2 (corrupt_document_on_load (be := be))
                     "redis" None (Some "{oops") "{oops" SyntaxError
                     eq_refl eq_refl eq_refl _)).
    right. repeat split. discriminate.
Defined.


End PersistenceProps.

(** * Properties of the monad *)

Module MonadProps.

Section Preservation.
Context {S B : Type} (f : S -> B).

Lemma preserves_ret {A : Type} (a : A) : preserves f (ret a).
Proof. intros s. reflexivity. Qed.

Lemma preserves_throw {A : Type} e : preserves f (throw (A := A) e).
Proof. intros s. reflexivity. Qed.

Lemma preserves_lift {A : Type} (o : outcome A) : preserves f (lift_outcome o).
Proof. intros s. reflexivity. Qed.

Lemma preserves_bind {A C : Type} (m : M S A) (k : A -> M S C) :
  preserves f m -> (forall a, preserves f (k a)) -> preserves f (bind m k).
Proof.
  intros Hm Hk s. unfold bind. specialize (Hm s).
  destruct (m s) as [[a|e] s1]; simpl in *; [|exact Hm].
  rewrite (Hk a s1). exact Hm.
Qed.

Lemma preserves_try {A : Type} (m : M S A) (h : Error -> M S A) :
  preserves f m -> (forall e, preserves f (h e)) -> preserves f (try_catch m h).
Proof.
  intros Hm Hh s. unfold try_catch. specialize (Hm s).
  destruct (m s) as [[a|e] s1]; simpl in *; [exact Hm|].
  rewrite (Hh e s1). exact Hm.
Qed.

Lemma preserves_modify (g : S -> S) :
  (forall s, f (g s) = f s) -> preserves f (modify g).
Proof. intros Hg s. apply Hg. Qed.

Lemma preserves_read {A : Type} (g : S -> outcome A) :
  preserves f (fun s => (g s, s)).
Proof. intros s. reflexivity. Qed.

End Preservation.

(** Break a computation down to its primitives. *)
Ltac preserves_steps :=
  repeat first
    [ apply preserves_ret | apply preserves_throw | apply preserves_lift
    | apply preserves_modify; intros ?; reflexivity
    | apply preserves_bind; [|intros ?]
    | apply preserves_try; [|intros ?]
    | match goal with
      | |- preserves _ (if ?b then _ else _) => destruct b
      | |- preserves _ (match ?x with _ => _ end) => destruct x
      end ].

End MonadProps.

(** * Further properties of the dispatcher *)

Module RequestExtras.
Import Request RequestProps.

Section MoreDispatcherFacts.
Context {AM : Type} {mgr : AccountManager AM} {net : Upstream}.

Lemma reports_app t1 t2 : reports (t1 ++ t2)%list = (reports t1 ++ reports t2)%list.
Proof.
  induction t1 as [|ev t1 IH]; [reflexivity|].
  destruct ev; simpl; rewrite IH; reflexivity.
Qed.

Lemma reports_agent_events proxy : reports (agent_events proxy) = [].
Proof.
  unfold agent_events. destruct proxy as [p|]; [|reflexivity].
  destruct (truthy_str (Some p)); [|reflexivity].
  destruct (agent_error p); reflexivity.
Qed.

Lemma reports_after_new_chat tok model proxy (w : World AM) :
  reports (trace (after_new_chat tok model proxy w)) = reports (trace w).
Proof.
  unfold after_new_chat; simpl. rewrite reports_app, reports_agent_events. reflexivity.
Qed.

Lemma reports_with_agent proxy (w : World AM) :
  reports (trace (with_agent proxy w)) = reports (trace w).
Proof.
  unfold with_agent; simpl. rewrite reports_app, reports_agent_events. reflexivity.
Qed.

Lemma reports_after_rotation em p e (w : World AM) :
  reports (trace (after_rotation em p e w)) = (em, p) :: reports (trace w).
Proof. reflexivity. Qed.

Lemma reports_after_completion cid body stream acct proxy (w : World AM) :
  reports (trace (after_completion cid body stream acct proxy w)) = reports (trace w).
Proof. reflexivity. Qed.

Lemma reports_after_report em p e (w : World AM) :
  reports (trace (after_report em p e w)) = (em, p) :: reports (trace w).
Proof. reflexivity. Qed.

(** What phase A answers, and where the answer comes from. *)
Lemma generateChatID_loop_answers fuel :
  forall tok model em proxy le (w : World AM),
    (fuel = 0 -> le <> None) ->
    exists v w',
      generateChatID_loop fuel tok model em proxy le w = (Returned v, w')
      /\ ((v = JNull /\ exists msg t, trace w' = EvLog LError "CHAT" msg :: t)
          \/ (truthy v = true
              /\ exists r cfg t,
                  trace w' = EvPost (NewChat model) cfg (Resolved r) :: t
                  /\ v = chat_id_of r
                  /\ authorization cfg = "Bearer " ++ tok)).
Proof.
  induction fuel as [|n IH]; intros tok model em proxy le w Hle.
  - destruct le as [e|]; [|exfalso; apply Hle; reflexivity].
    exists JNull, (after_break e w). split; [reflexivity|].
    left. split; [reflexivity|]. eexists _, _. reflexivity.
  - destruct (upstream (posts w)) as [r|e] eqn:Hup.
    + destruct (truthy (chat_id_of r)) eqn:Hid.
      * rewrite (loop_created _ _ _ _ _ _ _ _ Hup Hid).
        eexists _, _. split; [reflexivity|]. right. split; [exact Hid|].
        exists r. eexists _, _. unfold after_new_chat; simpl. rewrite Hup.
        repeat split.
      * rewrite (loop_malformed _ _ _ _ _ _ _ _ Hup Hid). apply IH. discriminate.
    + destruct (retryable proxy e) eqn:Hre.
      * destruct proxy as [p|]; [|discriminate].
        rewrite (loop_rotates _ _ _ _ _ _ _ _ Hup Hre). apply IH. discriminate.
      * rewrite (loop_breaks _ _ _ _ _ _ _ _ Hup Hre).
        eexists _, _. split; [reflexivity|]. left. split; [reflexivity|].
        eexists _, _. reflexivity.
Qed.

(** X1. [generateChatID] never throws. What it returns is [null], and then
    the last thing it did was to log an error, or a truthy identifier, and
    then the last thing it did was the POST to [chats/new] whose response
    carries that identifier at [data.data.id], sent with the token it was
    given. *)
Theorem generateChatID_answers tok model em proxy (w : World AM) :
  exists v w',
    generateChatID tok model em proxy w = (Returned v, w')
    /\ ((v = JNull /\ exists msg t, trace w' = EvLog LError "CHAT" msg :: t)
        \/ (truthy v = true
            /\ exists r cfg t,
                trace w' = EvPost (NewChat model) cfg (Resolved r) :: t
                /\ v = chat_id_of r
                /\ authorization cfg = "Bearer " ++ tok)).
Proof.
  unfold generateChatID. apply generateChatID_loop_answers. discriminate.
Qed.

Lemma generateChatID_loop_no_report fuel :
  forall tok model em proxy le (w : World AM),
    truthy_str proxy = false ->
    reports (trace (snd (generateChatID_loop fuel tok model em proxy le w)))
    = reports (trace w).
Proof.
  induction fuel as [|n IH]; intros tok model em proxy le w Hp.
  - destruct le as [e|]; reflexivity.
  - destruct (upstream (posts w)) as [r|e] eqn:Hup.
    + destruct (truthy (chat_id_of r)) eqn:Hid.
      * rewrite (loop_created _ _ _ _ _ _ _ _ Hup Hid). cbn [snd].
        exact (reports_after_new_chat tok model proxy w).
      * rewrite (loop_malformed _ _ _ _ _ _ _ _ Hup Hid), (IH _ _ _ _ _ _ Hp).
        exact (reports_after_new_chat tok model proxy w).
    + assert (Hre : retryable proxy e = false) by (unfold retryable; rewrite Hp; reflexivity).
      rewrite (loop_breaks _ _ _ _ _ _ _ _ Hup Hre). cbn [snd].
      exact (reports_after_new_chat tok model proxy w).
Qed.

(** What one outer iteration adds: at most four POSTs, no account
    selection, and no report when the proxy is not set. *)
Lemma iteration_effects body acct proxy le (w0 : World AM) :
  let w' := snd (try_catch (sendChatRequest_try body acct proxy le)
                           (sendChatRequest_catch acct proxy) w0) in
  posts w0 <= posts w' <= posts w0 + 4
  /\ selections (trace w') = selections (trace w0)
  /\ (truthy_str proxy = false -> reports (trace w') = reports (trace w0)).
Proof.
  unfold try_catch.
  assert (Hcatch : forall e (w3 : World AM),
             let w' := snd (sendChatRequest_catch acct proxy e w3) in
             posts w' = posts w3
             /\ selections (trace w') = selections (trace w3)
             /\ (truthy_str proxy = false -> reports (trace w') = reports (trace w3))).
  { intros e w3. destruct (retryable proxy e) eqn:Hre.
    - destruct proxy as [p|]; [|discriminate].
      rewrite (catch_reports _ _ _ _ Hre). repeat split.
      intros Hp. unfold retryable in Hre. rewrite Hp in Hre. discriminate.
    - rewrite (catch_breaks _ _ _ _ Hre). repeat split. }
  destruct (get_prop "stream" body) as [stream|e] eqn:Hs.
  2:{ rewrite (try_body_missing _ _ _ _ _ _ Hs).
      destruct (Hcatch e w0) as (Hp & Hsel & Hrep).
      destruct (sendChatRequest_catch acct proxy e w0) as [o w']; simpl in *.
      repeat split; [lia|lia|exact Hsel|exact Hrep]. }
  destruct (get_prop_any _ "model" _ _ Hs) as [model Hm].
  destruct (generateChatID_total (token acct) model (email acct) proxy
              (with_agent proxy w0)) as (cid & w2 & Hgen & _ & Hposts & Hsel2).
  assert (Hrep2 : truthy_str proxy = false -> reports (trace w2) = reports (trace w0)).
  { intros Hp.
    pose proof (generateChatID_loop_no_report MAX_RETRIES (token acct) model (email acct)
                  proxy None (with_agent proxy w0) Hp) as Hr.
    unfold generateChatID in Hgen. rewrite Hgen in Hr. simpl snd in Hr. rewrite Hr.
    unfold with_agent; simpl. rewrite reports_app, reports_agent_events. reflexivity. }
  assert (Hsel0 : selections (trace w2) = selections (trace w0)).
  { rewrite Hsel2. unfold with_agent; simpl.
    rewrite selections_app, selections_agent_events. reflexivity. }
  unfold MAX_RETRIES in Hposts. simpl posts in Hposts.
  rewrite (try_run _ _ _ _ _ _ _ _ _ Hs Hm Hgen).
  destruct (truthy cid); cbn [negb].
  2:{ simpl. repeat split; [lia|lia|exact Hsel0|exact Hrep2]. }
  cbv zeta.
  destruct (upstream (posts w2)) as [r|e] eqn:Hup.
  - destruct (status r =? 200)%Z; simpl;
      (repeat split; [lia|lia|exact Hsel0|exact Hrep2]).
  - destruct (Hcatch e (after_completion cid body stream acct proxy w2))
      as (Hp & Hsel & Hrep).
    destruct (sendChatRequest_catch acct proxy e
                (after_completion cid body stream acct proxy w2)) as [o w']; simpl in *.
    repeat split; [lia|lia|congruence|].
    intros Hpx. rewrite (Hrep Hpx). exact (Hrep2 Hpx).
Qed.

Lemma sendChatRequest_loop_effects body fuel :
  forall le (w : World AM),
    let w' := snd (sendChatRequest_loop fuel body le w) in
    posts w' <= posts w + 4 * fuel
    /\ length (selections (trace w')) <= fuel + length (selections (trace w))
    /\ ((forall em a, truthy_str (fst (getProxyForAccount em a)) = false) ->
        reports (trace w') = reports (trace w)).
Proof.
  induction fuel as [|n IH]; intros le w.
  - destruct le as [e|]; simpl; repeat split; lia.
  - destruct (getNextAccount (am w)) as [[acct|] a1] eqn:Hacc.
    2:{ rewrite (loop_no_account _ _ _ _ _ Hacc). simpl. repeat split; lia. }
    destruct (getProxyForAccount (email acct) a1) as [proxy a2] eqn:Hpx.
    rewrite (loop_selected _ _ _ _ _ _ _ _ Hacc Hpx).
    pose proof (iteration_effects body acct proxy le (after_select acct proxy a2 w))
      as (Hp & Hsel & Hrep).
    assert (Hfalsy : (forall em a, truthy_str (fst (getProxyForAccount em a)) = false) ->
                     truthy_str proxy = false).
    { intros Hall. specialize (Hall (email acct) a1). rewrite Hpx in Hall. exact Hall. }
    destruct (try_catch _ _ _) as [[[[v| |] le']|e] w1]; simpl snd in *; simpl in Hp, Hsel.
    + repeat split; [lia|rewrite Hsel; simpl; lia|].
      intros Hall. rewrite (Hrep (Hfalsy Hall)). reflexivity.
    + destruct (IH le' w1) as (Hp' & Hsel' & Hrep').
      repeat split; [lia|rewrite Hsel in Hsel'; simpl in Hsel'; lia|].
      intros Hall. rewrite (Hrep' Hall), (Hrep (Hfalsy Hall)). reflexivity.
    + destruct le' as [e|]; simpl;
        (repeat split; [lia|rewrite Hsel; simpl; lia|];
         intros Hall; rewrite (Hrep (Hfalsy Hall)); reflexivity).
    + repeat split; [lia|rewrite Hsel; simpl; lia|].
      intros Hall. rewrite (Hrep (Hfalsy Hall)). reflexivity.
Qed.

(** X2. One dispatch selects an account at most three times and issues at
    most twelve POSTs (up to three for the session and one for the
    completion in each of its outer attempts), whatever the upstream and
    the account manager answer. *)
Theorem sendChatRequest_bounds body (w : World AM) :
  posts (snd (sendChatRequest body w)) <= posts w + 12
  /\ length (selections (trace (snd (sendChatRequest body w))))
     <= 3 + length (selections (trace w)).
Proof.
  unfold sendChatRequest, MAX_RETRIES.
  pose proof (sendChatRequest_loop_effects body 3 None w) as Heff. cbv zeta in Heff.
  destruct Heff as (Hp & Hsel & _).
  split; [exact Hp|exact Hsel].
Qed.

(** X3. When the account manager never hands out a proxy, a dispatch never
    reports a failure to it: [handleNetworkFailure] is not called, whatever
    errors the upstream calls end with. *)
Theorem no_proxy_no_report body (w : World AM) :
  (forall em a, truthy_str (fst (getProxyForAccount em a)) = false) ->
  reports (trace (snd (sendChatRequest body w))) = reports (trace w).
Proof.
  intros Hall. unfold sendChatRequest.
  pose proof (sendChatRequest_loop_effects body MAX_RETRIES None w) as Heff.
  cbv zeta in Heff. destruct Heff as (_ & _ & Hrep).
  exact (Hrep Hall).
Qed.

(** X4. A body that is [null] or [undefined]: the attempt throws at
    [body.stream] before anything is sent, the error is no network error,
    and the dispatch ends in the tagged failure after the one account
    selection, with no POST issued and nothing reported to the account
    manager. *)
Theorem sendChatRequest_missing_body body (w : World AM) acct a1 proxy a2 :
  body = JNull \/ body = JUndefined ->
  getNextAccount (am w) = (Some acct, a1) ->
  getProxyForAccount (email acct) a1 = (proxy, a2) ->
  let msg := message (TypeError "stream") in
  sendChatRequest body w
  = (Returned failure,
     logged LError "REQUEST" msg
       (logged LError "REQUEST" msg (after_select acct proxy a2 w)))
  /\ posts (snd (sendChatRequest body w)) = posts w
  /\ reports (trace (snd (sendChatRequest body w))) = reports (trace w).
Proof.
  intros Hbody Hacc Hpx msg.
  assert (Hs : get_prop "stream" body = Thrown (TypeError "stream"))
    by (destruct Hbody as [-> | ->]; reflexivity).
  assert (Hre : retryable proxy (TypeError "stream") = false).
  { unfold retryable. destruct (truthy_str proxy); [|reflexivity].
    vm_compute. reflexivity. }
  assert (Hrun : sendChatRequest body w
                 = (Returned failure,
                    logged LError "REQUEST" msg
                      (logged LError "REQUEST" msg (after_select acct proxy a2 w)))).
  { unfold sendChatRequest, MAX_RETRIES.
    rewrite (loop_selected _ _ _ _ _ _ _ _ Hacc Hpx). unfold try_catch.
    rewrite (try_body_missing _ _ _ _ _ _ Hs), (catch_breaks _ _ _ _ Hre).
    reflexivity. }
  rewrite Hrun. repeat split.
Qed.

(** X5. A proxy bound during phase A is not the one the completion call of
    the same attempt goes through. When the first session POST fails with
    a transient error, the proxy is rotated and the second session POST
    succeeds, the completion POST is still configured with the proxy
    resolved before phase A; when it fails with a transient error too, it
    is that proxy, reported once already, that is reported again. *)
Theorem completion_keeps_initial_proxy n body le (w : World AM) acct a1 p a2
    stream model e1 r e3 :
  getNextAccount (am w) = (Some acct, a1) ->
  getProxyForAccount (email acct) a1 = (Some p, a2) ->
  get_prop "stream" body = Returned stream ->
  get_prop "model" body = Returned model ->
  let w0 := with_agent (Some p) (after_select acct (Some p) a2 w) in
  let p' := fst (getProxyForAccount (email acct)
                   (handleNetworkFailure (email acct) p (am w0))) in
  let w1 := after_rotation (email acct) p e1
              (after_new_chat (token acct) model (Some p) w0) in
  let w2 := after_new_chat (token acct) model p' w1 in
  let w3 := after_completion (chat_id_of r) body stream acct (Some p) w2 in
  upstream (posts w0) = Rejected e1 ->
  retryable (Some p) e1 = true ->
  upstream (posts w1) = Resolved r ->
  truthy (chat_id_of r) = true ->
  upstream (posts w2) = Rejected e3 ->
  retryable (Some p) e3 = true ->
  sendChatRequest_loop (S n) body le w
  = sendChatRequest_loop n body (Some e3) (after_report (email acct) p e3 w3)
  /\ head (trace w3)
     = Some (EvPost (Completions (chat_id_of r) body)
                    (completion_config acct stream (Some p)) (Rejected e3))
  /\ reports (trace (after_report (email acct) p e3 w3))
     = (email acct, p) :: (email acct, p) :: reports (trace w).
Proof.
  intros Hacc Hpx Hs Hm w0 p' w1 w2 w3 H1 R1 H2 T2 H3 R3.
  assert (Hgen : generateChatID (token acct) model (email acct) (Some p) w0
                 = (Returned (chat_id_of r), w2)).
  { unfold generateChatID, MAX_RETRIES.
    rewrite (loop_rotates _ _ _ _ _ _ _ _ H1 R1). fold p' w1.
    exact (loop_created 1 (token acct) model (email acct) p' (Some e1) w1 r H2 T2). }
  assert (Hreach : reaches_completion body w acct (Some p) stream (chat_id_of r) w2).
  { exists a1, a2, model. repeat split; assumption. }
  split; [|split].
  - rewrite (loop_at_completion n body le w _ _ _ _ _ Hreach), H3. cbv zeta.
    rewrite (catch_reports _ _ _ _ R3). reflexivity.
  - unfold w3, after_completion. cbn [trace]. rewrite H3. reflexivity.
  - unfold w3, w2, w1, w0.
    rewrite reports_after_report, reports_after_completion, reports_after_new_chat,
      reports_after_rotation, reports_after_new_chat, reports_with_agent.
    reflexivity.
Qed.

Lemma prefix_occurs needle hay :
  String.prefix needle hay = true <-> exists post, hay = needle ++ post.
Proof.
  revert needle. induction hay as [|d hay IH]; intros [|c needle]; simpl.
  - split; [intros _; exists ""; reflexivity|reflexivity].
  - split; [discriminate|intros [post Hp]; discriminate].
  - split; [intros _; exists (String d hay); reflexivity|reflexivity].
  - destruct (Ascii.ascii_dec c d) as [->|Hne].
    + rewrite IH. split; intros [post Hp]; exists post.
      * rewrite Hp. reflexivity.
      * injection Hp as Hp. exact Hp.
    + split; [discriminate|]. intros [post Hp]. injection Hp as Hcd _. congruence.
Qed.

Lemma includes_occurs hay needle :
  includes hay needle = true <-> occurs_in needle hay.
Proof.
  unfold occurs_in. induction hay as [|d hay IH].
  - change (includes "" needle) with (String.prefix needle "" || false).
    rewrite orb_false_r, prefix_occurs. split.
    + intros [post Hp]. exists "", post. exact Hp.
    + intros (pre & post & Hp). destruct pre as [|c pre]; [|discriminate].
      exists post. exact Hp.
  - change (includes (String d hay) needle)
      with (String.prefix needle (String d hay) || includes hay needle).
    rewrite orb_true_iff, IH, prefix_occurs. split.
    + intros [[post Hp]|(pre & post & Hp)].
      * exists "", post. exact Hp.
      * exists (String d pre), post. rewrite Hp. reflexivity.
    + intros (pre & post & Hp). destruct pre as [|c pre].
      * left. exists post. exact Hp.
      * right. injection Hp as _ Hp. exists pre, post. exact Hp.
Qed.

(** X6. The transient-network test of both catch blocks holds of an error
    exactly when its code is one of the six listed codes or its message
    has [timeout], [ECONN] or [socket] somewhere in it; the code and the
    message are looked at independently. *)
Theorem is_network_error_iff e :
  is_network_error e = true
  <-> (exists c, code e = Some c /\ In c networkErrorCodes)
      \/ occurs_in "timeout" (message e)
      \/ occurs_in "ECONN" (message e)
      \/ occurs_in "socket" (message e).
Proof.
  unfold is_network_error. rewrite !orb_true_iff, !includes_occurs.
  assert (Hcode : code_listed (code e) = true
                  <-> exists c, code e = Some c /\ In c networkErrorCodes).
  { unfold code_listed. destruct (code e) as [c|].
    - rewrite existsb_exists. split.
      + intros (x & Hin & Heq). apply String.eqb_eq in Heq. subst x.
        exists c. split; [reflexivity|exact Hin].
      + intros (x & Hx & Hin). injection Hx as <-.
        exists c. split; [exact Hin|apply String.eqb_refl].
    - split; [discriminate|]. intros (c & Hc & _). discriminate. }
  rewrite Hcode. tauto.
Qed.

End MoreDispatcherFacts.

Lemma sendChatRequest_missing_body_witness :
  let net := scripted [chat_created "c1"; completed 200 "hello"] in
  let w := start (mkPool [alice] (Some "socks5://p0") []) in
  fst (sendChatRequest (net := net) JNull w) = Returned failure
  /\ posts (snd (sendChatRequest (net := net) JNull w)) = 0.
Proof.
  intros net w.
  destruct (sendChatRequest_missing_body (net := net) JNull w alice
              (mkPool [alice] (Some "socks5://p0") []) (Some "socks5://p0")
              (mkPool [alice] (Some "socks5://p0") []))
    as (Hrun & Hposts & _); [left; reflexivity|reflexivity|reflexivity|].
  split; [rewrite Hrun; reflexivity|exact Hposts].
Defined.

Lemma completion_keeps_initial_proxy_witness :
  let net := scripted [conn_reset; chat_created "c1"; socket_hang_up] in
  let w := start (mkPool [alice] (Some "socks5://p0") ["socks5://p1"]) in
  reports (trace (snd (sendChatRequest_loop (net := net) 1 chat_body None w)))
  = [("alice@example.com", "socks5://p0"); ("alice@example.com", "socks5://p0")].
Proof.
  intros net w.
  destruct (completion_keeps_initial_proxy (net := net) 0 chat_body None w alice
              (mkPool [alice] (Some "socks5://p0") ["socks5://p1"]) "socks5://p0"
              (mkPool [alice] (Some "socks5://p0") ["socks5://p1"])
              (JBool false) (JStr "qwen3-max")
              (mkError (Some "ECONNRESET") "read ECONNRESET")
              (mkResponse 200 (JObj [("success", JBool true);
                                     ("data", JObj [("id", JStr "c1")])]))
              (mkError None "socket hang up"))
    as (Hrun & _ & Hrep); [reflexivity..|].
  rewrite Hrun. exact Hrep.
Defined.

Lemma no_proxy_no_report_witness :
  let net := scripted [conn_reset; socket_hang_up] in
  let w := mkWorld [alice; bob] 0 [] in
  reports (trace (snd (sendChatRequest (net := net) chat_body w))) = []
  /\ fst (sendChatRequest (net := net) chat_body w) = Returned failure.
Proof.
  intros net w. split.
  - apply (no_proxy_no_report (net := net) chat_body w). intros em a. reflexivity.
  - vm_compute. reflexivity.
Defined.

End RequestExtras.

(** * Further properties of the persistence store *)

Module PersistenceExtras.
Import Persistence PersistenceProps MonadProps.

Section MoreStoreFacts.
Context {be : Backend}.

(** On an initialized store of the first version, a save is followed by
    loads of what was saved. *)
Lemma save_then_load (s : Store) (d' : Doc) :
  initializationPromise s = Returned tt ->
  exists s',
    _saveData d' s = (Returned tt, s')
    /\ cache s' = Some d'
    /\ V1._getData s' = (Returned (Some d'), s')
    /\ V1._getData s = (Returned (Some (current s)), s).
Proof.
  intros Hinit. destruct (saveData_run d' s) as (s' & Hrun & Hc & _ & _ & Hp).
  exists s'. repeat split; [exact Hrun|exact Hc| |].
  - unfold V1._getData, bind, get, ret. rewrite Hp, Hinit, Hc. reflexivity.
  - unfold V1._getData, bind, get, ret. rewrite Hinit. reflexivity.
Qed.

(** X7. A binding saved is the binding loaded: after
    [saveProxyBinding(email, proxyUrl)] on an initialized store,
    [loadProxyBindings] answers the former bindings object on which
    [proxyBindings[email] = proxyUrl] was run. For every [email] but
    [__proto__] that object binds [email] to [proxyUrl]; every other own
    property is as before; for the email [__proto__], on bindings made by a
    literal or by [JSON.parse] without an own property of that name, the
    assignment goes to the prototype accessor and the own properties
    loaded are those of before. *)
Theorem binding_round_trip (s : Store) email proxyUrl b :
  initializationPromise s = Returned tt ->
  proxyBindings (current s) = Some b ->
  exists s' b',
    saveProxyBinding V1._getData email proxyUrl s = (Returned tt, s')
    /\ loadProxyBindings V1._getData s' = (Returned b', s')
    /\ b' = assign email proxyUrl b
    /\ (email <> "__proto__" -> b' !! email = Some proxyUrl)
    /\ (forall other, other <> email -> b' !! other = b !! other)
    /\ (email = "__proto__" -> b !! "__proto__" = None -> proto b = ProtoDefault ->
        own b' = own b).
Proof.
  intros Hinit Hb.
  destruct (save_then_load s
              (mkDoc (accounts (current s)) (Some (assign email proxyUrl b))
                     (proxyStatuses (current s)) (settings (current s))) Hinit)
    as (s' & Hsave & _ & Hload & Hget).
  exists s', (assign email proxyUrl b). split; [|split; [|split; [|split; [|split]]]].
  - unfold saveProxyBinding, bind. rewrite Hget. unfold the_data, ret, lift_outcome.
    unfold saveProxyBinding_data. rewrite Hb. exact Hsave.
  - unfold loadProxyBindings, bind. rewrite Hload. reflexivity.
  - reflexivity.
  - apply assign_lookup_eq.
  - intros other. apply assign_lookup_ne.
  - intros ->. apply assign_accessor.
Qed.

(** X8. A setting saved is the setting loaded, also on a document that
    had no [settings] key: after [saveSetting(key, value)] on an
    initialized store, [loadSettings] answers the former settings object
    (a new [{}], if the key was missing) on which [settings[key] = value]
    was run. For every [key] but [__proto__] that object has [key] set to
    [value]; every other own property is as before; for the key
    [__proto__], on settings made by a literal or by [JSON.parse] without
    an own property of that name, the assignment goes to the prototype
    accessor and the own properties loaded are those of before. *)
Theorem setting_round_trip (s : Store) key value :
  initializationPromise s = Returned tt ->
  let st := match settings (current s) with Some st => st | None => ∅ end in
  exists s' st',
    saveSetting V1._getData key value s = (Returned tt, s')
    /\ loadSettings V1._getData s' = (Returned st', s')
    /\ st' = assign key value st
    /\ (key <> "__proto__" -> st' !! key = Some value)
    /\ (forall other, other <> key -> st' !! other = st !! other)
    /\ (key = "__proto__" -> st !! "__proto__" = None -> proto st = ProtoDefault ->
        own st' = own st).
Proof.
  intros Hinit st.
  destruct (save_then_load s (saveSetting_data key value (current s)) Hinit)
    as (s' & Hsave & _ & Hload & Hget).
  exists s', (assign key value st).
  split; [|split; [|split; [|split; [|split]]]].
  - unfold saveSetting, bind. rewrite Hget. unfold the_data, ret. exact Hsave.
  - unfold loadSettings, bind. rewrite Hload. reflexivity.
  - reflexivity.
  - apply assign_lookup_eq.
  - intros other. apply assign_lookup_ne.
  - intros ->. apply assign_accessor.
Qed.

(** X9. [saveProxyStatuses(statuses)] replaces the whole status map: on an
    initialized store [loadProxyStatuses] then answers [statuses] itself,
    whatever statuses the document held, and the accounts, bindings and
    settings are those of before. *)
Theorem statuses_round_trip (s : Store) (statuses : Obj) :
  initializationPromise s = Returned tt ->
  exists s',
    saveProxyStatuses V1._getData statuses s = (Returned tt, s')
    /\ loadProxyStatuses V1._getData s' = (Returned statuses, s')
    /\ cache s' = Some (mkDoc (accounts (current s)) (proxyBindings (current s))
                              (Some statuses) (settings (current s))).
Proof.
  intros Hinit.
  destruct (save_then_load s (saveProxyStatuses_data statuses (current s)) Hinit)
    as (s' & Hsave & Hc & Hload & Hget).
  exists s'. split; [|split].
  - unfold saveProxyStatuses, bind. rewrite Hget. unfold the_data, ret. exact Hsave.
  - unfold loadProxyStatuses, bind. rewrite Hload. reflexivity.
  - exact Hc.
Qed.

Lemma findIndex_app_last {A : Type} (p : A -> bool) (l : list A) x :
  findIndex p l = None -> p x = true -> findIndex p (l ++ [x])%list = Some (length l).
Proof.
  induction l as [|y l IH]; intros Hnone Hx; simpl.
  - rewrite Hx. reflexivity.
  - simpl in Hnone. destruct (p y); [discriminate|].
    destruct (findIndex p l); [discriminate|].
    rewrite (IH eq_refl Hx). reflexivity.
Qed.

(** X10. An account appended by [saveAccount] is found again by its
    email. When no account has the email and the saved fields carry no
    [email] of their own, the first [saveAccount] appends one account with
    that email, and a second [saveAccount] for the same email appends
    nothing: it merges its fields over that account, which [loadAccounts]
    then answers in last position. *)
Theorem saveAccount_twice (s : Store) email (d1 d2 : Obj) accs :
  initializationPromise s = Returned tt ->
  accounts (current s) = Some accs ->
  findIndex (has_email email) accs = None ->
  d1 !! "email" = None ->
  exists s1 s2,
    saveAccount V1._getData email d1 s = (Returned tt, s1)
    /\ saveAccount V1._getData email d2 s1 = (Returned tt, s2)
    /\ loadAccounts V1._getData s2
       = (Returned (accs ++ [d2 ∪ (d1 ∪ {[ "email" := JStr email ]})])%list, s2).
Proof.
  intros Hinit Haccs Hnone Hd1.
  set (new := d1 ∪ ({[ "email" := JStr email ]} : Obj)).
  assert (Hnew : has_email email new = true).
  { unfold has_email, new. rewrite lookup_union_r by exact Hd1.
    rewrite lookup_singleton_eq. apply String.eqb_refl. }
  set (doc1 := mkDoc (Some (accs ++ [new])%list) (proxyBindings (current s))
                     (proxyStatuses (current s)) (settings (current s))).
  destruct (save_then_load s doc1 Hinit) as (s1 & Hsave1 & Hc1 & _ & Hget).
  assert (Hinit1 : initializationPromise s1 = Returned tt).
  { destruct (saveData_run doc1 s) as (s1' & Hrun & _ & _ & _ & Hp).
    rewrite Hsave1 in Hrun. injection Hrun as <-. rewrite Hp. exact Hinit. }
  assert (Hcur1 : current s1 = doc1) by (unfold current; rewrite Hc1; reflexivity).
  set (doc2 := mkDoc (Some (accs ++ [d2 ∪ new])%list) (proxyBindings (current s))
                     (proxyStatuses (current s)) (settings (current s))).
  destruct (save_then_load s1 doc2 Hinit1) as (s2 & Hsave2 & _ & Hload2 & Hget1).
  exists s1, s2. split; [|split].
  - unfold saveAccount, bind. rewrite Hget. unfold the_data, ret, lift_outcome.
    unfold saveAccount_data. rewrite Haccs, Hnone. exact Hsave1.
  - unfold saveAccount, bind. rewrite Hget1. unfold the_data, ret, lift_outcome.
    rewrite Hcur1. unfold saveAccount_data. cbn [accounts doc1].
    rewrite (findIndex_app_last _ _ _ Hnone Hnew).
    replace (alter (fun acc : Obj => d2 ∪ acc) (length accs) (accs ++ [new])%list)
      with (accs ++ [d2 ∪ new])%list; [exact Hsave2|].
    rewrite alter_app_r_alt by lia. rewrite Nat.sub_diag. reflexivity.
  - unfold loadAccounts, bind. rewrite Hload2. reflexivity.
Qed.

(** X11. A document that lacks a key. With [proxyBindings] missing,
    [loadProxyBindings] answers the empty map, and [saveProxyBinding]
    throws and leaves the store as it was; with [accounts] missing,
    [loadAccounts] answers the empty list, and [saveAccount] throws and
    leaves the store as it was. Nothing is written in either case. *)
Theorem accessors_on_missing_keys (s : Store) :
  initializationPromise s = Returned tt ->
  (proxyBindings (current s) = None ->
     loadProxyBindings V1._getData s = (Returned ∅, s)
     /\ forall email proxyUrl,
         exists e, saveProxyBinding V1._getData email proxyUrl s = (Thrown e, s))
  /\ (accounts (current s) = None ->
        loadAccounts V1._getData s = (Returned [], s)
        /\ forall email accountData,
            exists e, saveAccount V1._getData email accountData s = (Thrown e, s)).
Proof.
  intros Hinit.
  assert (Hget : V1._getData s = (Returned (Some (current s)), s)).
  { unfold V1._getData, bind, get, ret. rewrite Hinit. reflexivity. }
  split; intros Hmiss; split.
  - unfold loadProxyBindings, bind. rewrite Hget. unfold the_data, ret. rewrite Hmiss.
    reflexivity.
  - intros email proxyUrl. eexists.
    unfold saveProxyBinding, bind. rewrite Hget. unfold the_data, ret, lift_outcome.
    unfold saveProxyBinding_data. rewrite Hmiss. reflexivity.
  - unfold loadAccounts, bind. rewrite Hget. unfold the_data, ret. rewrite Hmiss.
    reflexivity.
  - intros email accountData. eexists.
    unfold saveAccount, bind. rewrite Hget. unfold the_data, ret, lift_outcome.
    unfold saveAccount_data. rewrite Hmiss. reflexivity.
Qed.

Lemma preserves_mode_io : preserves mode io.
Proof. intros s. unfold io. destruct (io_fault (ios s)); reflexivity. Qed.

Lemma preserves_mode_get : preserves mode get.
Proof. intros s. reflexivity. Qed.

Lemma preserves_saveData data : preserves mode (_saveData data).
Proof.
  unfold _saveData, fs_mkdir, fs_writeFile, redis_set, logger.
  preserves_steps; first [apply preserves_mode_io | apply preserves_mode_get].
Qed.

Lemma preserves_V1_initialize : preserves mode V1._initialize.
Proof.
  unfold V1._initialize, fs_readFile, redis_get, parse_or_default, logger.
  preserves_steps;
    first [apply preserves_mode_io | apply preserves_mode_get | apply preserves_saveData].
Qed.

(** The first version's initialization in a mode without backing store. *)
Lemma V1_initialize_in_memory (s : Store) :
  isInitialized s = false ->
  mode s <> "file" -> mode s <> "redis" ->
  V1._initialize s
  = (Returned tt,
     add_log (LInfo, "DATA", mode s)
       (set_isInitialized true (set_cache (Some _getDefaultData) s))).
Proof.
  intros Hi Hf Hr. apply String.eqb_neq in Hf. apply String.eqb_neq in Hr.
  unfold V1._initialize. unfold_store. cbn. rewrite Hi, Hf, Hr. reflexivity.
Qed.

(** X12. In a mode other than [file] and [redis] the store lives in
    memory only: the constructor makes no I/O call and starts from the
    default document, and [_saveData] changes nothing but the cache. *)
Theorem memory_mode_makes_no_io :
  (forall env_mode file0 redis0,
      let s := V1.new_DataPersistence env_mode file0 redis0 in
      mode s <> "file" -> mode s <> "redis" ->
      cache s = Some _getDefaultData
      /\ initializationPromise s = Returned tt
      /\ ios s = 0 /\ file s = file0 /\ redis_data s = redis0)
  /\ (forall (s : Store) data,
        mode s <> "file" -> mode s <> "redis" ->
        _saveData data s = (Returned tt, set_cache (Some data) s)).
Proof.
  split.
  - intros env_mode file0 redis0 s Hf Hr. subst s.
    assert (Hm : mode (V1.new_DataPersistence env_mode file0 redis0)
                 = mode (fresh env_mode file0 redis0)).
    { unfold V1.new_DataPersistence.
      pose proof (preserves_V1_initialize (fresh env_mode file0 redis0)) as Hk.
      destruct (V1._initialize (fresh env_mode file0 redis0)) as [r s1].
      exact Hk. }
    rewrite Hm in Hf, Hr. unfold V1.new_DataPersistence.
    rewrite (V1_initialize_in_memory (fresh env_mode file0 redis0) eq_refl Hf Hr).
    repeat split.
  - intros s data Hf Hr.
    apply String.eqb_neq in Hf. apply String.eqb_neq in Hr.
    unfold _saveData. unfold_store. cbn. rewrite Hf, Hr. reflexivity.
Qed.

(** X13. What is saved survives a restart, when the codec gives back the
    document it wrote: after a [_saveData(doc)] whose writes go through, a
    new instance constructed over the same backing store loads [doc]. In
    mode [redis] the written text must not be the empty string, which is
    read as an absent key. *)
Theorem restart_round_trip (s : Store) (doc : Doc) :
  io_fault 0 = None ->
  JSON_parse (JSON_stringify doc) = Returned (Some doc) ->
  let s1 := snd (_saveData doc s) in
  (mode s = "file" ->
   io_fault (ios s) = None -> io_fault (S (ios s)) = None ->
   let s2 := V1.new_DataPersistence (Some "file") (file s1) (redis_data s1) in
   file s1 = Some (JSON_stringify doc)
   /\ V1._getData s2 = (Returned (Some doc), s2))
  /\ (mode s = "redis" ->
      io_fault (ios s) = None -> JSON_stringify doc <> "" ->
      let s2 := V1.new_DataPersistence (Some "redis") (file s1) (redis_data s1) in
      redis_data s1 = Some (JSON_stringify doc)
      /\ V1._getData s2 = (Returned (Some doc), s2)).
Proof.
  intros H0 Hcodec s1. split.
  - intros Hm Hf0 Hf1 s2. subst s1 s2.
    unfold _saveData. unfold_store. cbn. rewrite Hm. cbn. rewrite Hf0. cbn.
    rewrite Hf1. cbn.
    unfold V1.new_DataPersistence, V1._initialize, V1._getData, fresh.
    unfold_store. cbn. rewrite H0. cbn. rewrite Hcodec. cbn. split; reflexivity.
  - intros Hm Hf0 Hne s2. subst s1 s2. apply String.eqb_neq in Hne.
    unfold _saveData. unfold_store. cbn. rewrite Hm. cbn. rewrite Hf0. cbn.
    unfold V1.new_DataPersistence, V1._initialize, V1._getData, fresh.
    unfold_store. cbn. rewrite H0. cbn. rewrite Hne. cbn. rewrite Hcodec. cbn.
    split; reflexivity.
Qed.

(** X14. In the first version a store whose initialization was rejected
    stays unusable: every accessor throws the error of the initialization
    and leaves the store as it was, and a load still throws it after a
    [_saveData], although the cache then holds the document. *)
Theorem rejected_store_stays_rejected (s : Store) e :
  initializationPromise s = Thrown e ->
  (forall doc,
      let s1 := snd (_saveData doc s) in
      cache s1 = Some doc /\ V1._getData s1 = (Thrown e, s1))
  /\ loadAccounts V1._getData s = (Thrown e, s)
  /\ loadProxyBindings V1._getData s = (Thrown e, s)
  /\ loadProxyStatuses V1._getData s = (Thrown e, s)
  /\ loadSettings V1._getData s = (Thrown e, s)
  /\ (forall email accountData, saveAccount V1._getData email accountData s = (Thrown e, s))
  /\ (forall email proxyUrl, saveProxyBinding V1._getData email proxyUrl s = (Thrown e, s))
  /\ (forall statuses, saveProxyStatuses V1._getData statuses s = (Thrown e, s))
  /\ (forall key value, saveSetting V1._getData key value s = (Thrown e, s)).
Proof.
  intros Hinit.
  assert (Hget : V1._getData s = (Thrown e, s)).
  { unfold V1._getData, bind, get, throw. rewrite Hinit. reflexivity. }
  split.
  - intros doc s1. subst s1.
    destruct (saveData_run doc s) as (s' & Hrun & Hc & _ & _ & Hp).
    rewrite Hrun. cbn [snd]. split; [exact Hc|].
    unfold V1._getData, bind, get, throw. rewrite Hp, Hinit. reflexivity.
  - unfold loadAccounts, loadProxyBindings, loadProxyStatuses, loadSettings,
      saveAccount, saveProxyBinding, saveProxyStatuses, saveSetting, bind.
    rewrite Hget. repeat split.
Qed.

(** X15. A backing file that holds the JSON value [null]. The second
    version hands [null] out as the document, so that its accessors throw
    a type error; the first version falls back to the default document. *)
Theorem null_document text :
  JSON_parse text = Returned None ->
  (forall (s : Store),
      cache s = None -> mode s = "file" -> file s = Some text ->
      io_fault (ios s) = None ->
      V2._getData s = (Returned None, tick s)
      /\ (exists e, fst (loadAccounts V2._getData s) = Thrown e)
      /\ (forall key value, exists e, fst (saveSetting V2._getData key value s) = Thrown e))
  /\ (forall redis0,
        io_fault 0 = None ->
        let s := V1.new_DataPersistence (Some "file") (Some text) redis0 in
        V1._getData s = (Returned (Some _getDefaultData), s)
        /\ loadAccounts V1._getData s = (Returned [], s)).
Proof.
  intros Hparse. split.
  - intros s Hc Hm Hf H0.
    assert (Hget : V2._getData s = (Returned None, tick s)).
    { unfold V2._getData. unfold_store. cbn.
      rewrite Hc, Hm. cbn. rewrite H0. cbn. rewrite Hf. cbn. rewrite Hparse. cbn.
      unfold set_cache, tick. cbn. rewrite Hc. reflexivity. }
    split; [exact Hget|]. split.
    + eexists. unfold loadAccounts, bind. rewrite Hget. reflexivity.
    + intros key value. eexists. unfold saveSetting, bind. rewrite Hget. reflexivity.
  - intros redis0 H0 s. subst s.
    unfold loadAccounts, V1.new_DataPersistence, V1._initialize, V1._getData, fresh.
    unfold_store. cbn. rewrite H0. cbn. rewrite Hparse. cbn. split; reflexivity.
Qed.

(** X16. The first load of the second version on an empty backing store
    answers the default document. With a missing file it also saves it:
    the default document is in the cache whatever happens to the write, and
    in the file once [mkdir] and [writeFile] go through. With an absent
    cache key nothing is written. *)
Theorem V2_first_load_on_empty_store (s : Store) :
  cache s = None ->
  io_fault (ios s) = None ->
  (mode s = "file" -> file s = None ->
   exists s',
     V2._getData s = (Returned (Some _getDefaultData), s')
     /\ cache s' = Some _getDefaultData
     /\ (io_fault (S (ios s)) = None -> io_fault (S (S (ios s))) = None ->
         file s' = Some (JSON_stringify _getDefaultData)))
  /\ (mode s = "redis" -> redis_data s = None ->
      V2._getData s
      = (Returned (Some _getDefaultData), set_cache (Some _getDefaultData) (tick s))).
Proof.
  intros Hc H0. split.
  - intros Hm Hf.
    unfold V2._getData, _saveData. unfold_store. cbn.
    rewrite Hc, Hm. cbn. rewrite H0. cbn. rewrite Hf. cbn. rewrite Hm. cbn.
    destruct (io_fault (S (ios s))) as [e1|] eqn:H1; cbn.
    + eexists. split; [reflexivity|]. split; [reflexivity|]. intros; discriminate.
    + destruct (io_fault (S (S (ios s)))) as [e2|] eqn:H2; cbn.
      * eexists. split; [reflexivity|]. split; [reflexivity|]. intros; discriminate.
      * eexists. split; [reflexivity|]. split; reflexivity.
  - intros Hm Hr. apply String.eqb_eq in Hm.
    unfold V2._getData. unfold_store. cbn.
    rewrite Hc. destruct (String.eqb (mode s) "file") eqn:Hmf.
    { apply String.eqb_eq in Hmf. apply String.eqb_eq in Hm. congruence. }
    rewrite Hm. cbn. rewrite H0. cbn. rewrite Hr. reflexivity.
Qed.

(** X17. In the second version a load never throws, whatever the cache,
    the mode, the backing store and its faults are, and the promise of the
    constructor is never rejected. *)
Theorem V2_load_never_throws :
  (forall s : Store, exists r s', V2._getData s = (Returned r, s'))
  /\ (forall env_mode file0 redis0,
        initializationPromise (V2.new_DataPersistence env_mode file0 redis0)
        = Returned tt).
Proof.
  assert (Hload : forall s : Store, exists r s', V2._getData s = (Returned r, s')).
  { intros s. unfold V2._getData, _saveData. unfold_store. cbn.
    repeat match goal with
           | |- context [match ?x with _ => _ end] =>
               lazymatch x with
               | context [match _ with _ => _ end] => fail
               | _ => destruct x eqn:?; cbn
               end
           | |- context [if ?x then _ else _] =>
               lazymatch x with
               | context [if _ then _ else _] => fail
               | context [match _ with _ => _ end] => fail
               | _ => destruct x eqn:?; cbn
               end
           end;
      eexists _, _; reflexivity. }
  split; [exact Hload|].
  intros env_mode file0 redis0.
  unfold V2.new_DataPersistence, V2._initialize, bind, try_catch, get.
  destruct (Hload (fresh env_mode file0 redis0)) as (r & s' & Hrun).
  rewrite Hrun. reflexivity.
Qed.

(** X18. The second version reads the backing store until a load
    succeeds, and not after. A load whose read fails (with an error other
    than a missing file) answers the default document and leaves the cache
    empty, so that the next load reads again; a load that reads and parses
    a document caches it, and the loads after it answer from the cache
    without an I/O call. *)
Theorem V2_load_retries_then_caches (s : Store) text d e :
  cache s = None -> mode s = "file" -> file s = Some text ->
  JSON_parse text = Returned (Some d) ->
  io_fault (ios s) = Some e -> code_is e "ENOENT" = false ->
  io_fault (S (ios s)) = None ->
  let s1 := add_log (LError, "DATA", message e) (tick s) in
  let s2 := set_cache (Some d) (tick s1) in
  V2._getData s = (Returned (Some _getDefaultData), s1)
  /\ V2._getData s1 = (Returned (Some d), s2)
  /\ V2._getData s2 = (Returned (Some d), s2).
Proof.
  intros Hc Hm Hf Hparse H0 Hcode H1 s1 s2. subst s1 s2.
  split; [|split].
  - unfold V2._getData. unfold_store. cbn.
    rewrite Hc, Hm. cbn. rewrite H0. cbn. rewrite Hcode. reflexivity.
  - unfold V2._getData. unfold_store. cbn.
    rewrite Hc, Hm. cbn. rewrite H1. cbn. rewrite Hf. cbn. rewrite Hparse. reflexivity.
  - reflexivity.
Qed.

End MoreStoreFacts.

(** *** Concrete runs *)

Lemma binding_round_trip_witness :
  (exists s' b',
      saveProxyBinding (be := sample_backend []) V1._getData "bob@example.com"
        (JStr "socks5://p2") memory_store = (Returned tt, s')
      /\ loadProxyBindings V1._getData s' = (Returned b', s')
      /\ b' !! "bob@example.com" = Some (JStr "socks5://p2")
      /\ b' !! "alice@example.com" = Some (JStr "socks5://p1"))
  /\ (exists s' b',
        saveProxyBinding (be := sample_backend []) V1._getData "__proto__"
          (JStr "socks5://p2") memory_store = (Returned tt, s')
        /\ loadProxyBindings V1._getData s' = (Returned b', s')
        /\ b' !! "__proto__" = None
        /\ own b' = {[ "alice@example.com" := JStr "socks5://p1" ]}).
Proof.
  split.
  - destruct (binding_round_trip (be := sample_backend []) memory_store
                "bob@example.com" (JStr "socks5://p2")
                (plain {[ "alice@example.com" := JStr "socks5://p1" ]}) eq_refl eq_refl)
      as (s' & b' & Hsave & Hload & _ & Hkey & Hother & _).
    exists s', b'. split; [exact Hsave|]. split; [exact Hload|].
    split; [apply Hkey; discriminate|].
    rewrite Hother by discriminate. reflexivity.
  - destruct (binding_round_trip (be := sample_backend []) memory_store
                "__proto__" (JStr "socks5://p2")
                (plain {[ "alice@example.com" := JStr "socks5://p1" ]}) eq_refl eq_refl)
      as (s' & b' & Hsave & Hload & _ & _ & _ & Hproto).
    exists s', b'. split; [exact Hsave|]. split; [exact Hload|].
    assert (Hown : own b' = {[ "alice@example.com" := JStr "socks5://p1" ]}).
    { rewrite Hproto; reflexivity. }
    split; [|exact Hown].
    unfold lookup, Dict_lookup. rewrite Hown. reflexivity.
Defined.

Lemma setting_round_trip_witness :
  (exists s' st',
      saveSetting (be := sample_backend []) V1._getData "apiKey" (JStr "sk-1") memory_store
      = (Returned tt, s')
      /\ loadSettings V1._getData s' = (Returned st', s')
      /\ st' !! "apiKey" = Some (JStr "sk-1"))
  /\ (exists s' st',
        saveSetting (be := sample_backend []) V1._getData "__proto__" (JStr "x")
          memory_store = (Returned tt, s')
        /\ loadSettings V1._getData s' = (Returned st', s')
        /\ own st' = ∅).
Proof.
  split.
  - destruct (setting_round_trip (be := sample_backend []) memory_store "apiKey"
                (JStr "sk-1") eq_refl)
      as (s' & st' & Hsave & Hload & _ & Hkey & _).
    exists s', st'. split; [exact Hsave|]. split; [exact Hload|].
    apply Hkey. discriminate.
  - destruct (setting_round_trip (be := sample_backend []) memory_store "__proto__"
                (JStr "x") eq_refl)
      as (s' & st' & Hsave & Hload & _ & _ & _ & Hproto).
    exists s', st'. split; [exact Hsave|]. split; [exact Hload|].
    rewrite Hproto; reflexivity.
Defined.

Lemma statuses_round_trip_witness :
  exists s',
    saveProxyStatuses (be := sample_backend []) V1._getData
      {[ "socks5://p1" := JStr "failed" ]} memory_store = (Returned tt, s')
    /\ loadProxyStatuses V1._getData s'
       = (Returned ({[ "socks5://p1" := JStr "failed" ]} : Obj), s').
Proof.
  destruct (statuses_round_trip (be := sample_backend []) memory_store
              {[ "socks5://p1" := JStr "failed" ]} eq_refl) as (s' & Hsave & Hload & _).
  exists s'. split; [exact Hsave|exact Hload].
Defined.

Lemma saveAccount_twice_witness :
  exists s1 s2,
    saveAccount (be := sample_backend []) V1._getData "carol@example.com"
      {[ "password" := JStr "pw-c" ]} memory_store = (Returned tt, s1)
    /\ saveAccount (be := sample_backend []) V1._getData "carol@example.com"
         {[ "token" := JStr "tokC" ]} s1 = (Returned tt, s2)
    /\ fst (loadAccounts V1._getData s2)
       = Returned [alice_account; bob_account;
                   ({[ "token" := JStr "tokC" ]} : Obj)
                   ∪ (({[ "password" := JStr "pw-c" ]} : Obj)
                      ∪ {[ "email" := JStr "carol@example.com" ]})].
Proof.
  assert (Hnone : findIndex (has_email "carol@example.com") [alice_account; bob_account]
                  = None) by (vm_compute; reflexivity).
  assert (Hd1 : ({[ "password" := JStr "pw-c" ]} : Obj) !! "email" = None)
    by (vm_compute; reflexivity).
  destruct (saveAccount_twice (be := sample_backend []) memory_store "carol@example.com"
              {[ "password" := JStr "pw-c" ]} {[ "token" := JStr "tokC" ]}
              [alice_account; bob_account] eq_refl eq_refl Hnone Hd1)
    as (s1 & s2 & H1 & H2 & Hload).
  exists s1, s2. split; [exact H1|]. split; [exact H2|]. rewrite Hload. reflexivity.
Defined.

Lemma accessors_on_missing_keys_witness :
  loadProxyBindings V1._getData seeded_store = (Returned ∅, seeded_store)
  /\ (exists e, saveProxyBinding (be := sample_backend []) V1._getData
                  "alice@example.com" (JStr "socks5://p1") seeded_store
                = (Thrown e, seeded_store))
  /\ loadAccounts V1._getData empty_object_store = (Returned [], empty_object_store)
  /\ (exists e, saveAccount (be := sample_backend []) V1._getData
                  "alice@example.com" ∅ empty_object_store
                = (Thrown e, empty_object_store)).
Proof.
  destruct (accessors_on_missing_keys (be := sample_backend []) seeded_store eq_refl)
    as (Hb & _).
  destruct (accessors_on_missing_keys (be := sample_backend []) empty_object_store eq_refl)
    as (_ & Ha).
  destruct (Hb eq_refl) as (Hload & Hsave).
  destruct (Ha eq_refl) as (Hload' & Hsave').
  split; [exact Hload|]. split; [apply Hsave|]. split; [exact Hload'|apply Hsave'].
Defined.

Lemma memory_mode_makes_no_io_witness :
  let s := V1.new_DataPersistence (be := sample_backend [0; 1; 2]) None
             (Some "{oops") (Some "{oops") in
  cache s = Some _getDefaultData
  /\ ios s = 0
  /\ _saveData (be := sample_backend [0; 1; 2]) two_accounts s
     = (Returned tt, set_cache (Some two_accounts) s).
Proof.
  intros s.
  assert (Hf : mode s <> "file") by discriminate.
  assert (Hr : mode s <> "redis") by discriminate.
  destruct (proj1 (memory_mode_makes_no_io (be := sample_backend [0; 1; 2]))
              None (Some "{oops") (Some "{oops") Hf Hr) as (Hc & _ & Hi & _).
  split; [exact Hc|]. split; [exact Hi|].
  exact (proj2 (memory_mode_makes_no_io (be := sample_backend [0; 1; 2]))
           s two_accounts Hf Hr).
Defined.

Lemma restart_round_trip_witness :
  let be := accounts_backend in
  (let s := default_file_store in
   let s1 := snd (_saveData (be := be) two_accounts s) in
   let s2 := V1.new_DataPersistence (be := be) (Some "file") (file s1) (redis_data s1) in
   fst (V1._getData s) = Returned (Some _getDefaultData)
   /\ file s = Some sample_text
   /\ file s1 = Some accounts_text
   /\ V1._getData s2 = (Returned (Some two_accounts), s2))
  /\ (let s := default_redis_store in
      let s1 := snd (_saveData (be := be) two_accounts s) in
      let s2 := V1.new_DataPersistence (be := be) (Some "redis") (file s1) (redis_data s1) in
      fst (V1._getData s) = Returned (Some _getDefaultData)
      /\ redis_data s = Some sample_text
      /\ redis_data s1 = Some accounts_text
      /\ V1._getData s2 = (Returned (Some two_accounts), s2)).
Proof.
  intros be. split.
  - intros s s1 s2.
    destruct (proj1 (restart_round_trip (be := be) s two_accounts eq_refl eq_refl)
                eq_refl eq_refl eq_refl) as (Hfile & Hload).
    split; [reflexivity|]. split; [reflexivity|]. split; [exact Hfile|exact Hload].
  - intros s s1 s2.
    destruct (proj2 (restart_round_trip (be := be) s two_accounts eq_refl eq_refl)
                eq_refl eq_refl ltac:(discriminate)) as (Hkey & Hload).
    split; [reflexivity|]. split; [reflexivity|]. split; [exact Hkey|exact Hload].
Defined.

Lemma rejected_store_stays_rejected_witness :
  initializationPromise rejected_store = Thrown SyntaxError
  /\ V1._getData (snd (_saveData (be := sample_backend []) two_accounts rejected_store))
     = (Thrown SyntaxError,
        snd (_saveData (be := sample_backend []) two_accounts rejected_store))
  /\ saveSetting (be := sample_backend []) V1._getData "apiKey" (JStr "sk-1") rejected_store
     = (Thrown SyntaxError, rejected_store).
Proof.
  assert (Hinit : initializationPromise rejected_store = Thrown SyntaxError)
    by reflexivity.
  destruct (rejected_store_stays_rejected (be := sample_backend []) rejected_store
              SyntaxError Hinit) as (Hsave & _ & _ & _ & _ & _ & _ & _ & Hset).
  split; [exact Hinit|]. split; [exact (proj2 (Hsave two_accounts))|apply Hset].
Defined.

Lemma null_document_witness :
  let be := sample_backend [] in
  fst (V2._getData (be := be) (fresh (Some "file") (Some "null") None)) = Returned None
  /\ fst (V1._getData (V1.new_DataPersistence (be := be) (Some "file") (Some "null") None))
     = Returned (Some _getDefaultData).
Proof.
  intros be.
  destruct (null_document (be := be) "null" eq_refl) as (H2 & H1).
  destruct (H2 (fresh (Some "file") (Some "null") None) eq_refl eq_refl eq_refl eq_refl)
    as (Hget & _).
  destruct (H1 None eq_refl) as (Hget1 & _).
  split; [rewrite Hget; reflexivity|rewrite Hget1; reflexivity].
Defined.

Lemma V2_first_load_on_empty_store_witness :
  let be := sample_backend [] in
  (exists s',
      V2._getData (be := be) (fresh (Some "file") None None)
      = (Returned (Some _getDefaultData), s')
      /\ file s' = Some sample_text)
  /\ fst (V2._getData (be := be) (fresh (Some "redis") None None))
     = Returned (Some _getDefaultData).
Proof.
  intros be.
  destruct (V2_first_load_on_empty_store (be := be) (fresh (Some "file") None None)
              eq_refl eq_refl) as (Hfile & _).
  destruct (V2_first_load_on_empty_store (be := be) (fresh (Some "redis") None None)
              eq_refl eq_refl) as (_ & Hredis).
  split.
  - destruct (Hfile eq_refl eq_refl) as (s' & Hrun & _ & Hsaved).
    exists s'. split; [exact Hrun|]. exact (Hsaved eq_refl eq_refl).
  - rewrite (Hredis eq_refl eq_refl). reflexivity.
Defined.

Lemma V2_load_retries_then_caches_witness :
  let be := sample_backend [0] in
  let s := fresh (Some "file") (Some sample_text) None in
  fst (V2._getData (be := be) s) = Returned (Some _getDefaultData)
  /\ cache (snd (V2._getData (be := be) s)) = None
  /\ exists s2,
      V2._getData (be := be) (snd (V2._getData (be := be) s))
      = (Returned (Some _getDefaultData), s2)
      /\ ios s2 = 2
      /\ V2._getData (be := be) s2 = (Returned (Some _getDefaultData), s2).
Proof.
  intros be s.
  destruct (V2_load_retries_then_caches (be := be) s sample_text _getDefaultData EACCES
              eq_refl eq_refl eq_refl eq_refl eq_refl eq_refl eq_refl)
    as (H1 & H2 & H3).
  rewrite H1. split; [reflexivity|]. split; [reflexivity|].
  eexists. split; [exact H2|]. split; [reflexivity|exact H3].
Defined.

End PersistenceExtras.

(** * Properties of the start-up configuration *)

Module StartupProps.
Import Startup MonadProps.

Lemma split_on_nonempty sep s : split_on sep s <> [].
Proof.
  destruct s as [|c rest]; simpl; [discriminate|].
  destruct (Ascii.eqb c sep); [discriminate|].
  destruct (split_on sep rest); discriminate.
Qed.

Lemma split_on_app sep key rest :
  lacks sep key = true ->
  split_on sep (key ++ String sep rest) = key :: split_on sep rest.
Proof.
  induction key as [|c key IH]; simpl; intros Hk.
  - rewrite Ascii.eqb_refl. reflexivity.
  - apply andb_true_iff in Hk as [Hc Hk]. apply negb_true_iff in Hc.
    rewrite Hc, (IH Hk). reflexivity.
Qed.

Lemma split_on_lacks sep s : lacks sep s = true -> split_on sep s = [s].
Proof.
  induction s as [|c s IH]; simpl; intros Hs; [reflexivity|].
  apply andb_true_iff in Hs as [Hc Hs]. apply negb_true_iff in Hc.
  rewrite Hc, (IH Hs). reflexivity.
Qed.

Lemma join_split sep s : join (String sep "") (split_on sep s) = s.
Proof.
  induction s as [|c s IH]; [reflexivity|].
  simpl split_on. destruct (Ascii.eqb c sep) eqn:Hc.
  - apply Ascii.eqb_eq in Hc. subst c.
    pose proof (split_on_nonempty sep s) as Hne.
    destruct (split_on sep s) as [|piece pieces]; [contradiction|].
    change (join (String sep "") ("" :: piece :: pieces))
      with (String sep (join (String sep "") (piece :: pieces))).
    rewrite IH. reflexivity.
  - pose proof (split_on_nonempty sep s) as Hne.
    destruct (split_on sep s) as [|piece pieces]; [contradiction|].
    destruct pieces as [|piece' pieces].
    + simpl in *. rewrite IH. reflexivity.
    + change (join (String sep "") (String c piece :: piece' :: pieces))
        with (String c (join (String sep "") (piece :: piece' :: pieces))).
      rewrite IH. reflexivity.
Qed.

(** X23. Line ends. A line without line feed and carriage return is
    split off the same way whether it ends with a carriage return and a
    line feed or with a line feed alone: the line is what stands before
    the line end, and the rest is split on. *)
Theorem split_lines_line_ends line rest :
  lacks LF line = true ->
  lacks CR line = true ->
  split_lines (line ++ String CR (String LF rest)) = line :: split_lines rest
  /\ split_lines (line ++ String LF rest) = line :: split_lines rest.
Proof.
  induction line as [|c line IH]; intros Hlf Hcr.
  - split; reflexivity.
  - simpl in Hlf, Hcr.
    apply andb_true_iff in Hlf as [Hc1 Hlf]. apply negb_true_iff in Hc1.
    apply andb_true_iff in Hcr as [Hc2 Hcr]. apply negb_true_iff in Hc2.
    destruct (IH Hlf Hcr) as [IH1 IH2]. split.
    + change (split_lines (String c line ++ String CR (String LF rest)))
        with (if Ascii.eqb c LF then "" :: split_lines (line ++ String CR (String LF rest))
              else match line ++ String CR (String LF rest) with
                   | String d rest' =>
                       if Ascii.eqb c CR && Ascii.eqb d LF then "" :: split_lines rest'
                       else match split_lines (line ++ String CR (String LF rest)) with
                            | l :: ls => String c l :: ls
                            | [] => [String c ""]
                            end
                   | EmptyString => [String c ""]
                   end).
      rewrite Hc1, Hc2, IH1. destruct line; reflexivity.
    + change (split_lines (String c line ++ String LF rest))
        with (if Ascii.eqb c LF then "" :: split_lines (line ++ String LF rest)
              else match line ++ String LF rest with
                   | String d rest' =>
                       if Ascii.eqb c CR && Ascii.eqb d LF then "" :: split_lines rest'
                       else match split_lines (line ++ String LF rest) with
                            | l :: ls => String c l :: ls
                            | [] => [String c ""]
                            end
                   | EmptyString => [String c ""]
                   end).
      rewrite Hc1, Hc2, IH2. destruct line; reflexivity.
Qed.

(** X24. The accounts seeded from the environment. An item [email:password]
    gives that email and password; an item without colon gives the email
    and no password; and of an item with a second colon everything from
    that colon on is dropped, so that a password with a colon in it is cut
    short. *)
Theorem parse_account_cases em pw :
  lacks ":" em = true ->
  lacks ":" pw = true ->
  parse_account (em ++ ":" ++ pw) = (em, Some pw)
  /\ parse_account em = (em, None)
  /\ (forall tail, parse_account (em ++ ":" ++ pw ++ ":" ++ tail) = (em, Some pw)).
Proof.
  intros Hem Hpw. unfold parse_account. split; [|split].
  - change (":" ++ pw) with (String ":" pw).
    rewrite (split_on_app _ _ _ Hem), (split_on_lacks _ _ Hpw). reflexivity.
  - rewrite (split_on_lacks _ _ Hem). reflexivity.
  - intros tail. change (":" ++ pw ++ ":" ++ tail) with (String ":" (pw ++ String ":" tail)).
    rewrite (split_on_app _ _ _ Hem), (split_on_app _ _ _ Hpw). reflexivity.
Qed.

Section SyncFacts.
Context {rt : Runtime}.

(** X19. What a line of [set-env] sets. A line [key=rest] whose key has no
    [=] and is not empty, and whose [rest] is not empty once trimmed, sets
    the variable named by the trimmed key to the whole trimmed [rest],
    further [=] signs included; a key of blanks only gives the empty
    name, which the settings take and [process.env] refuses. A line
    without [=], and a line that starts with [=], set nothing. *)
Theorem parse_line_cases :
  (forall key rest,
      lacks "=" key = true -> key <> "" -> trim rest <> "" ->
      parse_line (key ++ "=" ++ rest) = Some (trim key, trim rest))
  /\ (forall line,
        lacks "=" line = true -> trim "" = "" -> parse_line line = None)
  /\ (forall rest, parse_line ("=" ++ rest) = None).
Proof.
  split; [|split].
  - intros key rest Hk Hne Hv. unfold parse_line.
    change ("=" ++ rest) with (String "=" rest).
    rewrite (split_on_app _ _ _ Hk), join_split.
    apply String.eqb_neq in Hne. apply String.eqb_neq in Hv.
    unfold nonempty. rewrite Hne, Hv. reflexivity.
  - intros line Hl Ht. unfold parse_line. rewrite (split_on_lacks _ _ Hl).
    simpl join. rewrite Ht. unfold nonempty. simpl. rewrite andb_false_r. reflexivity.
  - intros rest. unfold parse_line. simpl. reflexivity.
Qed.

(** [process.env] never gets a variable with the empty name. *)
Lemma env_assignment_name key value name v :
  env_assignment key value = Some (name, v) -> name <> "".
Proof.
  unfold env_assignment, nonempty. intros H.
  destruct (String.eqb (c_str key) "") eqn:He; [discriminate|].
  apply String.eqb_neq in He.
  destruct (lacks "=" (c_str key)); [|discriminate].
  injection H as <- _. exact He.
Qed.

Lemma last_assignment_empty_name lines : last_assignment "" lines = None.
Proof.
  induction lines as [|line rest IH]; [reflexivity|].
  simpl. rewrite IH.
  destruct (parse_line line) as [[k v]|]; [|reflexivity].
  destruct (env_assignment k v) as [[n v']|] eqn:Hset; [|reflexivity].
  apply env_assignment_name in Hset. apply String.eqb_neq in Hset.
  rewrite Hset. reflexivity.
Qed.

Lemma process_lines_run lines :
  forall data (p : Proc),
  exists d' p',
    process_lines lines data p = (Returned d', p')
    /\ set_env_file p' = set_env_file p
    /\ data_json_file p' = data_json_file p
    /\ fs_calls p' = fs_calls p
    /\ forall key,
         env p' !! key = match last_assignment key lines with
                         | Some v => Some v
                         | None => env p !! key
                         end.
Proof.
  induction lines as [|line rest IH]; intros data p.
  - exists data, p. repeat split.
  - simpl process_lines. destruct (parse_line line) as [[k v]|] eqn:Hline.
    + unfold bind at 1, console_log, modify. unfold bind at 1, setenv.
      destruct (env_assignment k v) as [[n v']|] eqn:Hset; unfold modify, ret.
      * destruct (IH (set_setting k v data)
                    (mkProc (set_env_file p) (data_json_file p) (<[n := v']> (env p))
                            (fs_calls p) ((false, k ++ "=" ++ v) :: console p)))
          as (d' & p' & Hrun & Hs & Hd & Hc & Henv).
        exists d', p'. simpl in *. split; [exact Hrun|]. repeat split; try assumption.
        intros key. rewrite Henv, Hline, Hset.
        destruct (last_assignment key rest); [reflexivity|].
        destruct (String.eqb n key) eqn:Hk.
        -- apply String.eqb_eq in Hk. subst n. apply lookup_insert_eq.
        -- apply String.eqb_neq in Hk. apply lookup_insert_ne. exact Hk.
      * destruct (IH (set_setting k v data)
                    (mkProc (set_env_file p) (data_json_file p) (env p)
                            (fs_calls p) ((false, k ++ "=" ++ v) :: console p)))
          as (d' & p' & Hrun & Hs & Hd & Hc & Henv).
        exists d', p'. simpl in *. split; [exact Hrun|]. repeat split; try assumption.
        intros key. rewrite Henv, Hline, Hset.
        destruct (last_assignment key rest); reflexivity.
    + destruct (IH data p) as (d' & p' & Hrun & Hs & Hd & Hc & Henv).
      exists d', p'. split; [exact Hrun|]. repeat split; try assumption.
      intros key. rewrite Henv. simpl. rewrite Hline.
      destruct (last_assignment key rest); reflexivity.
Qed.

Lemma read_data_json_run (p : Proc) :
  exists r p',
    read_data_json p = (Returned r, p')
    /\ set_env_file p' = set_env_file p
    /\ data_json_file p' = data_json_file p
    /\ env p' = env p.
Proof.
  unfold read_data_json, readFileSync, fs_call, console_error, get.
  unfold bind, try_catch, modify, ret, throw, lift_outcome. cbn.
  destruct (data_json_file p) as [text|] eqn:Hd;
    [|eexists _, _; repeat split; try assumption].
  destruct (fs_fault (fs_calls p)); cbn; [eexists _, _; repeat split; try assumption|].
  rewrite Hd. destruct (JSON_parse text); cbn;
    eexists _, _; repeat split; try assumption.
Qed.

(** The end of the [try] block: [set-env] is gone only when [data.json]
    was written. *)
Lemma write_back_run data (p : Proc) content :
  set_env_file p = Some content ->
  let p' := snd (write_back data p) in
  env p' = env p
  /\ (set_env_file p' = Some content
      \/ (set_env_file p' = None
          /\ data_json_file p' = Some (JSON_stringify data)
          /\ fst (write_back data p) = Returned tt))
  /\ (fs_fault (fs_calls p) = None -> fs_fault (S (fs_calls p)) = None ->
      set_env_file p' = None).
Proof.
  intros Hs. unfold write_back, writeFileSync_data_json, unlinkSync_set_env, fs_call,
    console_log, get.
  unfold bind, try_catch, modify, ret, throw. cbn.
  destruct (fs_fault (fs_calls p)); cbn.
  { repeat split; [left; exact Hs|discriminate]. }
  destruct (fs_fault (S (fs_calls p))); cbn.
  { repeat split; [left; exact Hs|discriminate]. }
  rewrite Hs. cbn. repeat split. right. repeat split.
Qed.

#[local] Opaque read_data_json prepare_data write_back process_lines.

(** How [syncProcessSetEnv] runs when [set-env] is there. *)
Lemma sync_run (p : Proc) content :
  set_env_file p = Some content ->
  exists p',
    syncProcessSetEnv p = (Returned tt, p')
    /\ (set_env_file p' = Some content
        \/ (set_env_file p' = None
            /\ exists d, data_json_file p' = Some (JSON_stringify d)))
    /\ (fs_fault (fs_calls p) = None ->
        forall key,
          env p' !! key = match last_assignment key (split_lines content) with
                          | Some v => Some v
                          | None => env p !! key
                          end).
Proof.
  intros Hs.
  unfold syncProcessSetEnv, readFileSync, fs_call, console_log, console_error, get.
  unfold bind, try_catch, modify, ret, throw. cbn. rewrite Hs. cbn.
  destruct (fs_fault (fs_calls p)) as [e|] eqn:H0; cbn.
  { eexists. split; [reflexivity|]. cbn. split; [left; exact Hs|discriminate]. }
  rewrite Hs. cbn.
  match goal with
  | |- context [read_data_json ?q] =>
      destruct (read_data_json_run q) as (r & p2 & Hread & Hs2 & Hd2 & He2)
  end.
  rewrite Hread. cbn in Hs2, He2.
  destruct (process_lines_run (split_lines content) (prepare_data r) p2)
    as (d & p3 & Hproc & Hs3 & Hd3 & Hc3 & He3).
  rewrite Hproc.
  assert (Hs3' : set_env_file p3 = Some content) by (rewrite Hs3, Hs2; reflexivity).
  pose proof (write_back_run d p3 content Hs3') as Hwb. cbv zeta in Hwb.
  destruct (write_back d p3) as [[[]|e] p4]; cbn in Hwb |- *;
    destruct Hwb as (Henv & Hfiles & _).
  - exists p4. split; [reflexivity|]. split.
    + destruct Hfiles as [Hl|(Hn & Hw & _)]; [left; exact Hl|right].
      split; [exact Hn|]. exists d. exact Hw.
    + intros _ key. rewrite Henv, He3, He2. reflexivity.
  - eexists. split; [reflexivity|]. cbn. split.
    + destruct Hfiles as [Hl|(_ & _ & Hret)]; [left; exact Hl|discriminate].
    + intros _ key. rewrite Henv, He3, He2. reflexivity.
Qed.

(** X20. [syncProcessSetEnv] never throws, and without a [set-env] file
    it does nothing at all: the files, the environment and the console are
    as before, and no call to the file system that can fail is made. *)
Theorem syncProcessSetEnv_never_throws (p : Proc) :
  fst (syncProcessSetEnv p) = Returned tt
  /\ (set_env_file p = None -> syncProcessSetEnv p = (Returned tt, p)).
Proof.
  split.
  - destruct (set_env_file p) as [content|] eqn:Hs.
    + destruct (sync_run p content Hs) as (p' & Hrun & _). rewrite Hrun. reflexivity.
    + unfold syncProcessSetEnv, try_catch, bind, get. rewrite Hs. reflexivity.
  - intros Hs. unfold syncProcessSetEnv, try_catch, bind, get. rewrite Hs. reflexivity.
Qed.

(** X21. Once [set-env] was read, the environment holds its assignments,
    whatever happens to [data.json] afterwards: a variable set by a line
    has the value of the last line that sets it, every other variable
    keeps its value; name and value are the C strings of the trimmed key
    and of the trimmed rest of the line (first part). A line whose key
    trims to the empty name sets no variable: no line sets the variable
    with the empty name, which is as before (second part). *)
Theorem syncProcessSetEnv_environment (p : Proc) content :
  set_env_file p = Some content ->
  fs_fault (fs_calls p) = None ->
  let p' := snd (syncProcessSetEnv p) in
  (forall name,
      env p' !! name
      = match last_assignment name (split_lines content) with
        | Some v => Some v
        | None => env p !! name
        end)
  /\ last_assignment "" (split_lines content) = None
  /\ env p' !! "" = env p !! "".
Proof.
  intros Hs H0 p'. subst p'.
  destruct (sync_run p content Hs) as (p' & Hrun & _ & Henv).
  rewrite Hrun. cbn [snd].
  assert (Hnone : last_assignment "" (split_lines content) = None)
    by apply last_assignment_empty_name.
  split; [exact (Henv H0)|]. split; [exact Hnone|].
  rewrite (Henv H0 ""), Hnone. reflexivity.
Qed.

(** X22. [set-env] is removed only after [data.json] was written: after a
    run, either [set-env] is still there with its content, to be processed
    by the next start, or it is gone and [data.json] holds a serialized
    document. When no call to the file system fails, it is gone. *)
Theorem syncProcessSetEnv_consumes_after_writing (p : Proc) content :
  set_env_file p = Some content ->
  let p' := snd (syncProcessSetEnv p) in
  (set_env_file p' = Some content
   \/ (set_env_file p' = None /\ exists d, data_json_file p' = Some (JSON_stringify d)))
  /\ ((forall n, fs_fault n = None) -> set_env_file p' = None).
Proof.
  intros Hs p'. subst p'. split.
  - destruct (sync_run p content Hs) as (p' & Hrun & Hfiles & _).
    rewrite Hrun. exact Hfiles.
  - intros Hok.
    unfold syncProcessSetEnv, readFileSync, fs_call, console_log, console_error, get.
    unfold bind, try_catch, modify, ret, throw. cbn. rewrite Hs. cbn.
    rewrite Hok. cbn. rewrite Hs. cbn.
    match goal with
    | |- context [read_data_json ?q] =>
        destruct (read_data_json_run q) as (r & p2 & Hread & Hs2 & Hd2 & He2)
    end.
    rewrite Hread. cbn in Hs2.
    destruct (process_lines_run (split_lines content) (prepare_data r) p2)
      as (d & p3 & Hproc & Hs3 & Hd3 & Hc3 & He3).
    rewrite Hproc.
    assert (Hs3' : set_env_file p3 = Some content) by (rewrite Hs3, Hs2; reflexivity).
    pose proof (write_back_run d p3 content Hs3') as Hwb. cbv zeta in Hwb.
    destruct Hwb as (_ & _ & Hgone). specialize (Hgone (Hok _) (Hok _)).
    destruct (write_back d p3) as [[[]|e] p4]; cbn in Hgone |- *; exact Hgone.
Qed.

#[local] Transparent read_data_json prepare_data write_back process_lines.

End SyncFacts.

(** *** Concrete runs *)

Lemma split_lines_line_ends_witness :
  split_lines three_lines = ["A=1"; "B = x=y "; "A=2"].
Proof.
  unfold three_lines.
  rewrite (proj1 (split_lines_line_ends "A=1" ("B = x=y " ++ String LF "A=2")
                    eq_refl eq_refl)).
  rewrite (proj2 (split_lines_line_ends "B = x=y " "A=2" eq_refl eq_refl)).
  reflexivity.
Defined.

Lemma parse_account_cases_witness :
  parse_account "a@example.com:pw:tail" = ("a@example.com", Some "pw").
Proof.
  exact (proj2 (proj2 (parse_account_cases "a@example.com" "pw" eq_refl eq_refl)) "tail").
Defined.

Lemma parse_line_cases_witness :
  parse_line (rt := sample_runtime []) "B = x=y " = Some ("B", "x=y")
  /\ parse_line (rt := sample_runtime []) "comment" = None.
Proof.
  split.
  - apply (proj1 (parse_line_cases (rt := sample_runtime [])) "B " " x=y ");
      [reflexivity|discriminate|discriminate].
  - apply (proj1 (proj2 (parse_line_cases (rt := sample_runtime []))) "comment");
      reflexivity.
Defined.

Lemma syncProcessSetEnv_never_throws_witness :
  let p := mkProc None (Some "[]") {[ "C" := "0" ]} 0 [] in
  syncProcessSetEnv (rt := sample_runtime [0]) p = (Returned tt, p).
Proof.
  intros p.
  exact (proj2 (syncProcessSetEnv_never_throws (rt := sample_runtime [0]) p) eq_refl).
Defined.

Lemma syncProcessSetEnv_environment_witness :
  (let p' := snd (syncProcessSetEnv (rt := sample_runtime [1]) at_start) in
   env p' !! "A" = Some "2" /\ env p' !! "B" = Some "x=y" /\ env p' !! "C" = Some "0")
  /\ (let p' := snd (syncProcessSetEnv (rt := sample_runtime []) at_blank_key) in
      parse_line (rt := sample_runtime []) " =v" = Some ("", "v")
      /\ env p' !! "" = None /\ env p' !! "C" = Some "0").
Proof.
  split.
  - destruct (syncProcessSetEnv_environment (rt := sample_runtime [1]) at_start three_lines
                eq_refl eq_refl) as (Henv & _).
    cbv zeta in *. rewrite !Henv. repeat split.
  - destruct (syncProcessSetEnv_environment (rt := sample_runtime []) at_blank_key " =v"
                eq_refl eq_refl) as (Henv & _ & Hempty).
    cbv zeta in *. rewrite Hempty, (Henv "C"). repeat split.
Defined.

Lemma syncProcessSetEnv_consumes_after_writing_witness :
  set_env_file (snd (syncProcessSetEnv (rt := sample_runtime []) at_start)) = None
  /\ set_env_file (snd (syncProcessSetEnv (rt := sample_runtime [1]) at_start))
     = Some three_lines.
Proof.
  split.
  - apply (proj2 (syncProcessSetEnv_consumes_after_writing (rt := sample_runtime [])
                    at_start three_lines eq_refl)).
    intros n. reflexivity.
  - destruct (proj1 (syncProcessSetEnv_consumes_after_writing (rt := sample_runtime [1])
                       at_start three_lines eq_refl)) as [Hkept|[Hgone _]].
    + exact Hkept.
    + vm_compute in Hgone. discriminate.
Defined.

End StartupProps.
